(** * enumer: the generator's resolver, deriver and emitter, and the
      operations of the code it generates.

    The development follows [main.go].  The first half embeds the
    generator ([processType], [main], the template [codeTemplate]); the
    second half embeds the Go code the template produces for one type
    (the three lookup structures, [String], [<Type>String], [Valid], the
    bitmask group, [UnmarshalJSON] and [Scan]). *)

From Stdlib Require Import ZArith String Ascii List Lia Sorting.Permutation.
From Stdlib Require Import DecimalString DecimalZ DecimalPos.
From stdpp Require Import base option list strings gmap sorting.

Local Open Scope Z_scope.
Local Open Scope string_scope.

(* ===================================================================== *)
(** ** Data model *)
(* ===================================================================== *)

(** [type Element struct { Name, Value, StringValue string }].
    The source keeps [Value] as [constValue.ExactString()], the decimal
    rendering of the constant's exact integer value; the embedding keeps
    the integer itself, which is what the identifier [Name] denotes inside
    the generated code. *)
Record Element := mkElement {
  Name : string;
  Value : Z;
  StringValue : string
}.

(* ===================================================================== *)
(** ** Library functions of Go used by the source *)
(* ===================================================================== *)

Module strings.

(** [strings.HasPrefix(s, prefix)]:
    [len(s) >= len(prefix) && s[:len(prefix)] == prefix]. *)
Definition HasPrefix (s prefix : string) : bool :=
  (String.length prefix <=? String.length s)%nat &&
  bool_decide (substring 0 (String.length prefix) s = prefix).

(** [strings.TrimPrefix(s, prefix)]: [s] without the leading [prefix]
    when [HasPrefix], [s] itself otherwise. *)
Definition TrimPrefix (s prefix : string) : string :=
  if HasPrefix s prefix
  then substring (String.length prefix)
                 (String.length s - String.length prefix) s
  else s.

(** Byte-wise comparison of Go strings, as used by [sort.Strings]. *)
Fixpoint leb (a b : string) : bool :=
  match a, b with
  | EmptyString, _ => true
  | String _ _, EmptyString => false
  | String x a', String y b' =>
      if (nat_of_ascii x <? nat_of_ascii y)%nat then true
      else if (nat_of_ascii y <? nat_of_ascii x)%nat then false
      else leb a' b'
  end.

(** The six ASCII white-space bytes of Go's [asciiSpace] table. *)
Definition asciiSpace (c : ascii) : bool :=
  let n := nat_of_ascii c in
  (n =? 9)%nat || (n =? 10)%nat || (n =? 11)%nat ||
  (n =? 12)%nat || (n =? 13)%nat || (n =? 32)%nat.

Fixpoint TrimLeft (s : string) : string :=
  match s with
  | String c s' => if asciiSpace c then TrimLeft s' else s
  | EmptyString => EmptyString
  end.

Fixpoint TrimRight (s : string) : string :=
  match s with
  | EmptyString => EmptyString
  | String c s' =>
      match TrimRight s' with
      | EmptyString => if asciiSpace c then EmptyString else String c EmptyString
      | t => String c t
      end
  end.

(** [strings.TrimSpace] on its ASCII path: leading and trailing
    [asciiSpace] bytes removed.  (On a non-ASCII byte at either end Go
    switches to [unicode.IsSpace]; the theorems below that mention
    trimming are stated for an arbitrary trimming function, and this one
    is the instance used on concrete inputs.) *)
Definition TrimSpaceASCII (s : string) : string := TrimRight (TrimLeft s).

(** [strings.ToLower] on ASCII text. *)
Definition lowerByte (c : ascii) : ascii :=
  let n := nat_of_ascii c in
  if ((65 <=? n) && (n <=? 90))%nat then ascii_of_nat (n + 32) else c.

Fixpoint ToLowerASCII (s : string) : string :=
  match s with
  | EmptyString => EmptyString
  | String c s' => String (lowerByte c) (ToLowerASCII s')
  end.

End strings.

Module fmt.

(** The verb [%d] on an integer: its decimal digits, with a leading [-]
    when negative. *)
Definition d (i : Z) : string := NilZero.string_of_int (Z.to_int i).

End fmt.

Module golang.

(** The value of a hexadecimal digit, and of an octal digit. *)
Definition hexDigit (c : ascii) : option N :=
  let n := N_of_ascii c in
  if ((48 <=? n) && (n <=? 57))%N then Some (n - 48)%N
  else if ((97 <=? n) && (n <=? 102))%N then Some (n - 87)%N
  else if ((65 <=? n) && (n <=? 70))%N then Some (n - 55)%N
  else None.

Definition octDigit (c : ascii) : option N :=
  let n := N_of_ascii c in
  if ((48 <=? n) && (n <=? 55))%N then Some (n - 48)%N else None.

(** The first [k] characters of [s] read as hexadecimal digits, most
    significant first, and the rest of [s]. *)
Fixpoint hexDigits (k : nat) (acc : N) (s : string) : option (N * string) :=
  match k with
  | O => Some (acc, s)
  | S k' =>
      match s with
      | String c s' =>
          match hexDigit c with
          | Some d => hexDigits k' (16 * acc + d)%N s'
          | None => None
          end
      | EmptyString => None
      end
  end.

(** The UTF-8 encoding of a code point; surrogate halves and values
    above U+10FFFF are no code points. *)
Definition utf8 (n : N) : option string :=
  let b (k : N) := String (ascii_of_N k) EmptyString in
  if (n <? 128)%N then Some (b n)
  else if (n <? 2048)%N then
    Some (b (192 + n / 64)%N +:+ b (128 + n mod 64)%N)
  else if ((55296 <=? n) && (n <=? 57343))%N then None
  else if (n <? 65536)%N then
    Some (b (224 + n / 4096)%N +:+ b (128 + (n / 64) mod 64)%N +:+
          b (128 + n mod 64)%N)
  else if (n <=? 1114111)%N then
    Some (b (240 + n / 262144)%N +:+ b (128 + (n / 4096) mod 64)%N +:+
          b (128 + (n / 64) mod 64)%N +:+ b (128 + n mod 64)%N)
  else None.

(** The one-character escapes of a string literal: a, b, f, n, r, t, v,
    the backslash and the double quote. *)
Definition simpleEscape (c : ascii) : option ascii :=
  let n := N_of_ascii c in
  if (n =? 97)%N then Some (ascii_of_N 7)
  else if (n =? 98)%N then Some (ascii_of_N 8)
  else if (n =? 102)%N then Some (ascii_of_N 12)
  else if (n =? 110)%N then Some (ascii_of_N 10)
  else if (n =? 114)%N then Some (ascii_of_N 13)
  else if (n =? 116)%N then Some (ascii_of_N 9)
  else if (n =? 118)%N then Some (ascii_of_N 11)
  else if (n =? 92)%N then Some c
  else if (n =? 34)%N then Some c
  else None.

(** The string an interpreted string literal denotes, given the text
    between its quotes: [None] when the text is not the body of a
    literal (an unescaped quote or newline, a NUL, an unknown or
    incomplete escape, an escaped value that is no byte or no code
    point).  [fuel] bounds the number of characters read. *)
Fixpoint interpreted (fuel : nat) (s : string) : option string :=
  match fuel with
  | O => match s with EmptyString => Some EmptyString | _ => None end
  | S fuel' =>
      match s with
      | EmptyString => Some EmptyString
      | String c rest =>
          let n := N_of_ascii c in
          if ((n =? 34) || (n =? 10) || (n =? 0))%N then None
          else if negb (n =? 92)%N then
            option_map (String c) (interpreted fuel' rest)
          else
            match rest with
            | EmptyString => None
            | String e rest' =>
                let m := N_of_ascii e in
                if (m =? 120)%N then
                  match hexDigits 2 0 rest' with
                  | Some (v, r) =>
                      option_map (String (ascii_of_N v)) (interpreted fuel' r)
                  | None => None
                  end
                else if ((m =? 117) || (m =? 85))%N then
                  match hexDigits (if (m =? 117)%N then 4 else 8) 0 rest' with
                  | Some (v, r) =>
                      match utf8 v, interpreted fuel' r with
                      | Some b, Some t => Some (b +:+ t)
                      | _, _ => None
                      end
                  | None => None
                  end
                else
                  match octDigit e, rest' with
                  | Some d1, String o2 (String o3 r) =>
                      match octDigit o2, octDigit o3 with
                      | Some d2, Some d3 =>
                          let v := (64 * d1 + 8 * d2 + d3)%N in
                          if (v <=? 255)%N
                          then option_map (String (ascii_of_N v))
                                          (interpreted fuel' r)
                          else None
                      | _, _ => None
                      end
                  | Some _, _ => None
                  | None, _ =>
                      match simpleEscape e with
                      | Some b => option_map (String b) (interpreted fuel' rest')
                      | None => None
                      end
                  end
            end
      end
  end.

(** The value of the literal written as a quote, [s], a quote, for [s]
    taken from the text of a Go source file. *)
Definition literal (s : string) : option string :=
  interpreted (String.length s) s.

End golang.

(** A Go map composite literal [map[K]V{k1: v1, ..., kn: vn}] whose keys
    are constants.  The Go specification (Composite literals): "It is an
    error to specify multiple elements with the same field name or
    constant key value", so a literal with a repeated key is rejected by
    the compiler ([None]); otherwise the literal denotes the map holding
    exactly its entries. *)
Definition map_literal_step `{Countable K} {V}
    (acc : option (gmap K V)) (kv : K * V) : option (gmap K V) :=
  match acc with
  | None => None
  | Some m =>
      match m !! kv.1 with
      | Some _ => None
      | None => Some (<[kv.1 := kv.2]> m)
      end
  end.

Definition map_literal `{Countable K} {V} (kvs : list (K * V))
    : option (gmap K V) :=
  fold_left map_literal_step kvs (Some ∅).

Module sort.

Fixpoint insert (x : string) (l : list string) : list string :=
  match l with
  | [] => [x]
  | y :: l' => if strings.leb x y then x :: l else y :: insert x l'
  end.

(** [sort.Strings]: the slice in increasing byte-wise order. *)
Definition Strings (l : list string) : list string :=
  fold_right insert [] l.

End sort.

(** [strings.Split(s, sep)] for a one-byte separator: the pieces of [s]
    between the occurrences of [sep]; never empty. *)
Fixpoint Split (s : string) (sep : ascii) : list string :=
  match s with
  | EmptyString => [EmptyString]
  | String c s' =>
      if bool_decide (c = sep) then EmptyString :: Split s' sep
      else match Split s' sep with
           | [] => [String c EmptyString]
           | p :: ps => String c p :: ps
           end
  end.

(** [strings.Join(parts, sep)]. *)
Fixpoint Join (parts : list string) (sep : string) : string :=
  match parts with
  | [] => ""
  | [p] => p
  | p :: rest => p +:+ sep +:+ Join rest sep
  end.

(* ===================================================================== *)
(** ** The generator: configuration and the type-checked package *)
(* ===================================================================== *)

(** The command-line flags of [main.go] (package-level variables). *)
Record Flags := mkFlags {
  typeNames : string;
  output : string;
  trimPrefix : string;
  lineComment : bool;
  sqlFlag : bool;
  jsonFlag : bool;
  yamlFlag : bool;
  bitmaskFlag : bool
}.

(** A [types.Type]; [types.Identical] is equality of these handles. *)
Inductive GoType :=
  | Named (name : string)
  | Basic (name : string).

#[global] Instance GoType_eq_dec : EqDecision GoType.
Proof. solve_decision. Defined.

(** The [*types.Const] behind a defining identifier. *)
Record ConstObj := mkConst {
  const_type : GoType;
  const_val : Z
}.

(** An identifier of [vspec.Names] with [pkg.TypesInfo.Defs[name]]. *)
Record Ident := mkIdent {
  ident_Name : string;
  ident_Def : option ConstObj
}.

(** [ast.ValueSpec]: the names and the trailing line comment, given as
    [Some (vspec.Comment.Text())] when [vspec.Comment != nil]. *)
Record ValueSpec := mkValueSpec {
  Names : list Ident;
  Comment : option string
}.

Inductive Token := CONST | VAR | TYPE | IMPORT.

#[global] Instance Token_eq_dec : EqDecision Token.
Proof. solve_decision. Defined.

Inductive Decl :=
  | GenDecl (Tok : Token) (Specs : list ValueSpec)
  | FuncDecl.

(** A [types.Object] of the package scope: what the name declares (a
    type, a constant, a variable, a function) and [obj.Type()]. *)
Inductive ObjKind := TypeNameObj | ConstObject | VarObj | FuncObj.

#[global] Instance ObjKind_eq_dec : EqDecision ObjKind.
Proof. solve_decision. Defined.

Record Object := mkObject {
  obj_kind : ObjKind;
  obj_Type : GoType
}.

(** [packages.Package]: its name, its scope ([pkg.Types.Scope()], from
    names to objects) and the declarations of its files, in [pkg.Syntax]
    order. *)
Record Package := mkPackage {
  PkgName : string;
  Scope : gmap string Object;
  Syntax : list (list Decl)
}.

Inductive Result (A : Type) :=
  | Ok (a : A)
  | Err (msg : string).
Arguments Ok {A} a.
Arguments Err {A} msg.

(** [TemplateData]. *)
Record TemplateData := mkTemplateData {
  PackageName : string;
  Types : list string;
  Elements : gmap string (list Element);
  TrimPrefix : string;
  SQL : bool;
  JSON : bool;
  YAML : bool;
  Bitmask : bool;
  Command : string
}.

(* ===================================================================== *)
(** ** The rendered artifact *)
(* ===================================================================== *)

Inductive Group := Base | BitmaskGroup | JSONGroup | YAMLGroup | SQLGroup.

#[global] Instance Group_eq_dec : EqDecision Group.
Proof. solve_decision. Defined.

(** What the template writes for one type, one constructor per
    top-level declaration of [codeTemplate]. *)
Inductive Item :=
  | VarMap (entries : list (string * string))          (* _TMap *)
  | VarValues (names : list string)                    (* _TValues *)
  | VarNameToValueMap (entries : list (string * string)) (* _TNameToValueMap *)
  | Method (g : Group) (name : string).

Inductive Chunk :=
  | Header (command : string)
  | PackageClause (name : string)
  | Imports (paths : list string)
  | TypeChunk (typeName : string) (item : Item).

Definition Source := list Chunk.

Definition FS := gmap string Source.

(** What [os.WriteFile] did: it wrote the file, or it returned an error,
    after which the file holds what it held before ([behind = None]) or
    some other text ([behind = Some text], a truncated or partial file). *)
Inductive WriteOutcome :=
  | WriteOK
  | WriteFailed (err : string) (behind : option Source).

Section Generator.

(** [strings.TrimSpace], of Go's library. *)
Variable TrimSpace : string -> string.

(** [os.WriteFile(filename, data, 0644)] as the operating system
    decides it. *)
Variable WriteFile : string -> Source -> FS -> WriteOutcome.

(** [gofmt -w]: the formatted text, or the error of [cmd.Run()] when the
    command fails (the file is then left as it was written). *)
Variable gofmt : Source -> Result Source.

(** [strings.ToLower], of Go's library. *)
Variable ToLower : string -> string.

Variable flags : Flags.

(** Lines 196-208 of [processType]: the display string of one constant. *)
Definition stringValueOf (name : string) (comment : option string) : string :=
  let stringValue := name in
  let stringValue :=
    if bool_decide (trimPrefix flags <> "")
    then strings.TrimPrefix stringValue (trimPrefix flags)
    else stringValue in
  match lineComment flags, comment with
  | true, Some text =>
      let comment := TrimSpace text in
      if bool_decide (comment <> "") then comment else stringValue
  | _, _ => stringValue
  end.

Definition elementsOfSpec (targetType : GoType) (vspec : ValueSpec)
    : list Element :=
  flat_map (fun name =>
    match ident_Def name with
    | None => []
    | Some constObj =>
        if bool_decide (const_type constObj = targetType)
        then [mkElement (ident_Name name) (const_val constObj)
                        (stringValueOf (ident_Name name) (Comment vspec))]
        else []
    end) (Names vspec).

Definition elementsOfDecl (targetType : GoType) (decl : Decl)
    : list Element :=
  match decl with
  | GenDecl CONST specs => flat_map (elementsOfSpec targetType) specs
  | _ => []
  end.

(** [processType]: the constants of the type named [typeName], in
    declaration order over [pkg.Syntax]. *)
Definition processType (pkg : Package) (typeName : string)
    : Result (list Element) :=
  match Scope pkg !! typeName with
  | None => Err ("type " +:+ typeName +:+ " not found")
  | Some obj =>
      let targetType := obj_Type obj in
      Ok (flat_map (flat_map (elementsOfDecl targetType)) (Syntax pkg))
  end.

(** The loop of [main] over the requested types; [Err] is [log.Fatalf]. *)
Fixpoint processTypes (pkg : Package) (types : list string)
    (allElements : gmap string (list Element))
    : Result (gmap string (list Element)) :=
  match types with
  | [] => Ok allElements
  | typeName :: rest =>
      match processType pkg typeName with
      | Err err =>
          Err ("Failed to process type " +:+ typeName +:+ ": " +:+ err)
      | Ok elements =>
          if (length elements =? 0)%nat
          then Err ("No constants found for type " +:+ typeName)
          else processTypes pkg rest (<[typeName := elements]> allElements)
      end
  end.

(** Lines 41-45 of [main]. *)
Definition sortedTypes : list string :=
  sort.Strings (map TrimSpace (Split (typeNames flags) ",")).

Definition buildCommandString (types : list string) (outputName : string)
    : string :=
  let parts := ["enumer"; "-type=" +:+ Join types ","] in
  let parts := if bool_decide (trimPrefix flags <> "")
               then (parts ++ ["-trimprefix=" +:+ trimPrefix flags])%list else parts in
  let parts := if lineComment flags then (parts ++ ["-linecomment"])%list else parts in
  let parts := if jsonFlag flags then (parts ++ ["-json"])%list else parts in
  let parts := if yamlFlag flags then (parts ++ ["-yaml"])%list else parts in
  let parts := if sqlFlag flags then (parts ++ ["-sql"])%list else parts in
  let parts := if bool_decide (output flags <> "")
               then (parts ++ ["-output=" +:+ output flags])%list else parts in
  let parts := if bitmaskFlag flags then (parts ++ ["-bitmask"])%list else parts in
  Join parts " ".

(** Lines 47-57 of [main]. *)
Definition outputNameOf (types : list string) : string :=
  if bool_decide (output flags = "") then
    match types with
    | [t] => ToLower t +:+ "_enumer.go"
    | _ => if bitmaskFlag flags then "flags_gen.go" else "enums_gen.go"
    end
  else output flags.

(** The import block of [codeTemplate]. *)
Definition importsOf (data : TemplateData) : list string :=
  ((if SQL data then ["database/sql/driver"] else []) ++ ["fmt"] ++
   (if JSON data then ["encoding/json"] else []) ++
   (if YAML data then ["gopkg.in/yaml.v3"] else []))%list.

(** The body of [{{range $typeName := .Types}}]: what the template
    writes for one type, top to bottom. *)
Definition executeType (data : TemplateData) (typeName : string)
    : list Item :=
  let elements := default [] (Elements data !! typeName) in
  ([ VarMap (map (fun e => (Name e, StringValue e)) elements);
     VarValues (map Name elements);
     VarNameToValueMap (map (fun e => (StringValue e, Name e)) elements);
     Method Base "String";
     Method Base (typeName +:+ "Values");
     Method Base (typeName +:+ "String");
     Method Base "Valid" ] ++
   (if Bitmask data
    then [ Method BitmaskGroup "Has"; Method BitmaskGroup "HasAny";
           Method BitmaskGroup "HasAll"; Method BitmaskGroup "Set";
           Method BitmaskGroup "Clear"; Method BitmaskGroup "Toggle" ]
    else []) ++
   (if JSON data
    then [ Method JSONGroup "MarshalJSON"; Method JSONGroup "UnmarshalJSON" ]
    else []) ++
   (if YAML data
    then [ Method YAMLGroup "MarshalYAML"; Method YAMLGroup "UnmarshalYAML" ]
    else []) ++
   (if SQL data
    then [ Method SQLGroup "Scan"; Method SQLGroup "Value" ]
    else []))%list.

(** [tmpl.Execute] on [codeTemplate]. *)
Definition execute (data : TemplateData) : Source :=
  ([ Header (Command data); PackageClause (PackageName data);
     Imports (importsOf data) ] ++
   flat_map (fun typeName => map (TypeChunk typeName) (executeType data typeName))
            (Types data))%list.

(** [generateCode]: render, write the file, then format it in place.
    Each failure is returned with its cause; a failing [gofmt] leaves
    the unformatted file behind. *)
Definition generateCode (filename : string) (data : TemplateData) (fs : FS)
    : Result unit * FS :=
  let buf := execute data in
  match WriteFile filename buf fs with
  | WriteFailed err behind =>
      (Err ("failed to write file: " +:+ err),
       match behind with
       | Some text => <[filename := text]> fs
       | None => fs
       end)
  | WriteOK =>
      let fs := <[filename := buf]> fs in
      match gofmt buf with
      | Err err => (Err ("failed to format file: " +:+ err), fs)
      | Ok formatted => (Ok tt, <[filename := formatted]> fs)
      end
  end.

Inductive Exit :=
  | ExitOK
  | ExitUsage               (* [flag.Usage(); os.Exit(2)] *)
  | ExitFatal (msg : string). (* [log.Fatalf] *)

(** [main], from a package that loaded without errors. *)
Definition main (pkg : Package) (fs : FS) : Exit * FS :=
  if (String.length (typeNames flags) =? 0)%nat then (ExitUsage, fs) else
  let types := sortedTypes in
  let outputName := outputNameOf types in
  match processTypes pkg types ∅ with
  | Err msg => (ExitFatal msg, fs)
  | Ok allElements =>
      let cmdStr := buildCommandString types outputName in
      let data := mkTemplateData (PkgName pkg) types allElements
                    (trimPrefix flags) (sqlFlag flags) (jsonFlag flags)
                    (yamlFlag flags) (bitmaskFlag flags) cmdStr in
      match generateCode outputName data fs with
      | (Err err, fs') => (ExitFatal ("Failed to generate code: " +:+ err), fs')
      | (Ok _, fs') => (ExitOK, fs')
      end
  end.

End Generator.

(** [name] is one of the names of the value specification [vspec] of
    some constant declaration of the package. *)
Definition declares (pkg : Package) (vspec : ValueSpec) (name : Ident) : Prop :=
  exists file specs,
    file ∈ Syntax pkg /\ GenDecl CONST specs ∈ file /\
    vspec ∈ specs /\ name ∈ Names vspec.

(** The two ways in which one requested name stops the run: the
    package scope has no object of that name, or no constant has the
    type of the object it has. *)
Definition unresolvable (TrimSpace : string -> string) (flags : Flags)
    (pkg : Package) (typeName : string) : Prop :=
  Scope pkg !! typeName = None \/
  processType TrimSpace flags pkg typeName = Ok [].

(** The flags of a run with another [-type] argument. *)
Definition withTypeNames (f : Flags) (names : string) : Flags :=
  mkFlags names (output f) (trimPrefix f) (lineComment f)
          (sqlFlag f) (jsonFlag f) (yamlFlag f) (bitmaskFlag f).

(** The packages the methods of a group refer to in [codeTemplate]:
    [fmt.Sprintf] and [fmt.Errorf] in the base group, [json.Marshal],
    [json.Unmarshal] and [fmt.Errorf] in the JSON group, [*yaml.Node] and
    [fmt.Errorf] in the YAML group, [driver.Value] and [fmt.Errorf] in the
    SQL group; the bitmask group refers to none. *)
Definition groupImports (g : Group) : list string :=
  match g with
  | Base => ["fmt"]
  | BitmaskGroup => []
  | JSONGroup => ["encoding/json"; "fmt"]
  | YAMLGroup => ["gopkg.in/yaml.v3"; "fmt"]
  | SQLGroup => ["database/sql/driver"; "fmt"]
  end.

(** [parseArgs] of [enumer_test.go]: the trimmed lines of an
    [enumer.args] file that are neither empty nor comments. *)
Definition parseArgs (TrimSpace : string -> string) (argsContent : string)
    : list string :=
  let lines := Split argsContent (ascii_of_nat 10) in
  fold_left (fun args line =>
               let line := TrimSpace line in
               if negb (bool_decide (line = "")) && negb (strings.HasPrefix line "#")
               then (args ++ [line])%list else args)
            lines [].

(** The names of the constant declarations of a package, each with its
    value specification, in source order: file after file, declaration
    after declaration, name after name. *)
Definition constNames (pkg : Package) : list (ValueSpec * Ident) :=
  flat_map (flat_map (fun decl =>
    match decl with
    | GenDecl CONST specs =>
        flat_map (fun vspec => map (pair vspec) (Names vspec)) specs
    | _ => []
    end)) (Syntax pkg).

(** The name defines a constant of a type identical to [targetType]. *)
Definition hasType (targetType : GoType) (p : ValueSpec * Ident) : bool :=
  match ident_Def p.2 with
  | Some constObj => bool_decide (const_type constObj = targetType)
  | None => false
  end.

(** The Element of one constant name, if its type is [targetType]: the
    body of the innermost loop of [processType]. *)
Definition elementOfName (TrimSpace : string -> string) (flags : Flags)
    (targetType : GoType) (p : ValueSpec * Ident) : list Element :=
  match ident_Def p.2 with
  | None => []
  | Some constObj =>
      if bool_decide (const_type constObj = targetType)
      then [mkElement (ident_Name p.2) (const_val constObj)
              (stringValueOf TrimSpace flags (ident_Name p.2) (Comment p.1))]
      else []
  end.

(** The test of [parseArgs] on a trimmed line. *)
Definition keptLine (line : string) : bool :=
  negb (bool_decide (line = "")) && negb (strings.HasPrefix line "#").

(** The order of [sort.Strings]. *)
Definition string_le (a b : string) : Prop := strings.leb a b = true.

(** The boolean feature flags as written on a command line, and
    [flag.Parse] on them: each occurrence sets its variable. *)
Inductive BoolFlag := FlagSQL | FlagJSON | FlagYAML | FlagBitmask.

Definition setFlag (f : Flags) (b : BoolFlag) : Flags :=
  match b with
  | FlagSQL =>
      mkFlags (typeNames f) (output f) (trimPrefix f) (lineComment f)
              true (jsonFlag f) (yamlFlag f) (bitmaskFlag f)
  | FlagJSON =>
      mkFlags (typeNames f) (output f) (trimPrefix f) (lineComment f)
              (sqlFlag f) true (yamlFlag f) (bitmaskFlag f)
  | FlagYAML =>
      mkFlags (typeNames f) (output f) (trimPrefix f) (lineComment f)
              (sqlFlag f) (jsonFlag f) true (bitmaskFlag f)
  | FlagBitmask =>
      mkFlags (typeNames f) (output f) (trimPrefix f) (lineComment f)
              (sqlFlag f) (jsonFlag f) (yamlFlag f) true
  end.

Definition flag_Parse (args : list BoolFlag) (f : Flags) : Flags :=
  fold_left setFlag args f.

(** The type a chunk of the artifact belongs to. *)
Definition chunkType (c : Chunk) : option string :=
  match c with
  | TypeChunk typeName _ => Some typeName
  | _ => None
  end.

(** The per-type layout in the words of the specification: the three
    lookup structures, the base group, then the optional groups in the
    order bitmask, JSON, YAML, SQL. *)
Definition lookupStructures (elements : list Element) : list Item :=
  [ VarMap (map (fun e => (Name e, StringValue e)) elements);
    VarValues (map Name elements);
    VarNameToValueMap (map (fun e => (StringValue e, Name e)) elements) ].

Definition optionalGroups : list Group :=
  [ BitmaskGroup; JSONGroup; YAMLGroup; SQLGroup ].

Definition enabled (data : TemplateData) (g : Group) : bool :=
  match g with
  | Base => true
  | BitmaskGroup => Bitmask data
  | JSONGroup => JSON data
  | YAMLGroup => YAML data
  | SQLGroup => SQL data
  end.

Definition groupMethods (typeName : string) (g : Group) : list Item :=
  map (Method g)
    match g with
    | Base => [ "String"; typeName +:+ "Values"; typeName +:+ "String"; "Valid" ]
    | BitmaskGroup => [ "Has"; "HasAny"; "HasAll"; "Set"; "Clear"; "Toggle" ]
    | JSONGroup => [ "MarshalJSON"; "UnmarshalJSON" ]
    | YAMLGroup => [ "MarshalYAML"; "UnmarshalYAML" ]
    | SQLGroup => [ "Scan"; "Value" ]
    end.

(** The type names of the artifact's chunks, in the order written. *)
Definition chunkTypes (src : Source) : list string := omap chunkType src.

(* ===================================================================== *)
(** ** The generated code for one type *)
(* ===================================================================== *)

Module Generated.

(** The three lookup structures ([_TMap], [_TValues],
    [_TNameToValueMap]) as Go values. *)
Record Tables := mkTables {
  _Map : gmap Z string;
  _Values : list Z;
  _NameToValueMap : gmap string Z
}.

Section Initialisers.

(** The string that the Go string literal with the given text between
    its quotes denotes, [None] when that text is no literal: the
    template pastes [{{.StringValue}}] between two quotes as it is, and
    the compiler reads the result. *)
Variable literal : string -> option string.

(** The identifier [{{.Name}}] used as an expression: the value of the
    constant, except for the blank identifier, which is no value. *)
Definition nameExpr (e : Element) : option Z :=
  if bool_decide (Name e = "_") then None else Some (Value e).

(** What one Element contributes to the tables: the value of its name
    and the string of its quoted display string. *)
Definition entry (e : Element) : option (Z * string) :=
  match nameExpr e, literal (StringValue e) with
  | Some v, Some s => Some (v, s)
  | _, _ => None
  end.

Fixpoint entries (elements : list Element) : option (list (Z * string)) :=
  match elements with
  | [] => Some []
  | e :: rest =>
      match entry e, entries rest with
      | Some kv, Some kvs => Some (kv :: kvs)
      | _, _ => None
      end
  end.

(** The initialiser of [_TMap]: the literal
    [map[T]string{ Name: "StringValue", ... }], one entry per Element. *)
Definition valueToStringLiteral (elements : list Element)
    : option (gmap Z string) :=
  match entries elements with
  | Some kvs => map_literal kvs
  | None => None
  end.

(** The initialiser of [_TNameToValueMap]: the literal
    [map[string]T{ "StringValue": Name, ... }]. *)
Definition nameToValueLiteral (elements : list Element)
    : option (gmap string Z) :=
  match entries elements with
  | Some kvs => map_literal (map (fun kv => (kv.2, kv.1)) kvs)
  | None => None
  end.

(** The package-level initialisers of the three structures, as far as
    the template decides them: [None] when a name is the blank
    identifier, a quoted display string is no literal, or one of the two
    map literals repeats a constant key, in which cases the generated
    file does not compile; otherwise the values the three variables have
    in every package that builds. *)
Definition tables (elements : list Element) : option Tables :=
  match entries elements,
        valueToStringLiteral elements, nameToValueLiteral elements with
  | Some kvs, Some m, Some n => Some (mkTables m (map fst kvs) n)
  | _, _, _ => None
  end.


End Initialisers.

(** A dynamic value handed to [Scan(value any)]; [AnyOther t] is a
    value whose dynamic type prints as [t] under [%T]. *)
Inductive Any :=
  | AnyNil
  | AnyString (v : string)
  | AnyBytes (v : string)
  | AnyOther (dynType : string).

Section Methods.

Variable typeName : string.
Variable t : Tables.

(** [json.Unmarshal(data, &s)] for [s string]: the decoded string, or
    [None] when [data] is not a JSON string. *)
Variable json_Unmarshal : string -> option string.

Definition String (i : Z) : string :=
  match _Map t !! i with
  | Some str => str
  | None => typeName +:+ "(" +:+ fmt.d i +:+ ")"
  end.

Definition Values : list Z := _Values t.

(** [<Type>String(s)]: the value and the error, [None] being [nil]. *)
Definition TypeString (s : string) : Z * option string :=
  match _NameToValueMap t !! s with
  | Some val => (val, None)
  | None => (0, Some (s +:+ " is not a valid " +:+ typeName))
  end.

Definition Valid (i : Z) : bool :=
  match _Map t !! i with
  | Some _ => true
  | None => false
  end.

(** [UnmarshalJSON]: the receiver after the call, and the error. *)
Definition UnmarshalJSON (i : Z) (data : string) : Z * option string :=
  match json_Unmarshal data with
  | None => (i, Some (typeName +:+ " should be a string, got " +:+ data))
  | Some s => TypeString s
  end.

(** [Scan]: the receiver after the call, and the error. *)
Definition Scan (i : Z) (value : Any) : Z * option string :=
  match value with
  | AnyNil => (i, None)
  | AnyString v => TypeString v
  | AnyBytes v => TypeString v
  | AnyOther dynType =>
      (i, Some ("cannot scan type " +:+ dynType +:+ " into " +:+ typeName))
  end.


(** [json.Marshal] on a string (it has no error on strings). *)
Variable json_Marshal : string -> string.


(** A [*yaml.Node], with [node.Decode(&s)] for [s string] and
    [node.Value]. *)
Variable Node : Type.
Variable node_Decode : Node -> option string.
Variable node_Value : Node -> string.

Definition MarshalYAML (i : Z) : string * option string := (String i, None).


End Methods.

(** The bitmask group, on the integer representation. *)

Definition Has (i flag : Z) : bool := negb (Z.eqb (Z.land i flag) 0).

Fixpoint HasAny (i : Z) (flags : list Z) : bool :=
  match flags with
  | [] => false
  | flag :: rest => if negb (Z.eqb (Z.land i flag) 0) then true else HasAny i rest
  end.

Fixpoint HasAll (i : Z) (flags : list Z) : bool :=
  match flags with
  | [] => true
  | flag :: rest => if Z.eqb (Z.land i flag) 0 then false else HasAll i rest
  end.

Definition Set_ (i : Z) (flags : list Z) : Z :=
  fold_left (fun result flag => Z.lor result flag) flags i.

Definition Clear (i : Z) (flags : list Z) : Z :=
  fold_left (fun result flag => Z.land result (Z.lnot flag)) flags i.

Definition Toggle (i : Z) (flags : list Z) : Z :=
  fold_left (fun result flag => Z.lxor result flag) flags i.

(** The values of a signed integer type of [w] bits ([int] is [w = 64]). *)
Definition in_range (w : Z) (x : Z) : Prop :=
  - 2 ^ (w - 1) <= x < 2 ^ (w - 1).

End Generated.

(** A decoder for the simplest JSON strings, those written between two
    quotes without any escape; an instance of [json.Unmarshal] into a
    string for concrete inputs. *)
Definition quote : ascii := ascii_of_nat 34.
Definition backslash : ascii := ascii_of_nat 92.

Fixpoint json_body (s : string) : option string :=
  match s with
  | EmptyString => None
  | String c s' =>
      if bool_decide (c = quote)
      then (if bool_decide (s' = EmptyString) then Some EmptyString else None)
      else if bool_decide (c = backslash) then None
      else option_map (String c) (json_body s')
  end.

Definition json_plain (data : string) : option string :=
  match data with
  | String c s' => if bool_decide (c = quote) then json_body s' else None
  | EmptyString => None
  end.


(** Test data of the repository, resolved. *)

(* testdata/with_gaps: Low = 1, Medium = 5, High = 10, Urgent = 20 *)
Definition Priority_elements : list Element :=
  [ mkElement "Low" 1 "Low"; mkElement "Medium" 5 "Medium";
    mkElement "High" 10 "High"; mkElement "Urgent" 20 "Urgent" ].

(* [Read Permission = 1 << iota; Write; Execute; Delete] *)
Definition Permission_elements : list Element :=
  [ mkElement "Read" 1 "Read"; mkElement "Write" 2 "Write";
    mkElement "Execute" 4 "Execute"; mkElement "Delete" 8 "Delete" ].

(* testdata/composite *)
Definition RunStatus_elements : list Element :=
  [ mkElement "Pending" 1 "Pending"; mkElement "Running" 2 "Running";
    mkElement "Success" 4 "Success"; mkElement "Failure" 8 "Failure";
    mkElement "Skipped" 16 "Skipped"; mkElement "Completed" 28 "Completed" ].

(* testdata/line_comment, with [-linecomment] *)
Definition Color_elements : list Element :=
  [ mkElement "Red" 0 "red"; mkElement "Green" 1 "green";
    mkElement "Blue" 2 "blue"; mkElement "Yellow" 3 "yellow" ].


(* testdata/simple_iota: Pending, Running, Success, Failure *)
Definition Status_elements : list Element :=
  [ mkElement "Pending" 0 "Pending"; mkElement "Running" 1 "Running";
    mkElement "Success" 2 "Success"; mkElement "Failure" 3 "Failure" ].

(** testdata/simple_iota as a type-checked package: the scope holds the
    type and its four constants; the file has the type declaration, then
    the constant block. *)
Definition Status_pkg : Package :=
  mkPackage "testpkg"
    (<["Status" := mkObject TypeNameObj (Named "Status")]>
       (<["Pending" := mkObject ConstObject (Named "Status")]>
          (<["Running" := mkObject ConstObject (Named "Status")]>
             (<["Success" := mkObject ConstObject (Named "Status")]>
                (<["Failure" := mkObject ConstObject (Named "Status")]> ∅)))))
    [ [ GenDecl TYPE [];
        GenDecl CONST
          [ mkValueSpec [mkIdent "Pending" (Some (mkConst (Named "Status") 0))] None;
            mkValueSpec [mkIdent "Running" (Some (mkConst (Named "Status") 1))] None;
            mkValueSpec [mkIdent "Success" (Some (mkConst (Named "Status") 2))] None;
            mkValueSpec [mkIdent "Failure" (Some (mkConst (Named "Status") 3))] None ] ] ].

(** A package that declares [type Empty int] and no constant of it. *)
Definition Empty_pkg : Package :=
  mkPackage "testpkg"
    (<["Empty" := mkObject TypeNameObj (Named "Empty")]>
       (<["N" := mkObject ConstObject (Basic "untyped int")]> ∅))
    [ [ GenDecl TYPE [];
        GenDecl CONST
          [ mkValueSpec [mkIdent "N" (Some (mkConst (Basic "untyped int") 3))] None ] ] ].

(** A file system on which every write succeeds, and a [gofmt] that
    succeeds and leaves the text as it is. *)
Definition WriteFile_ok (filename : string) (data : Source) (fs : FS)
    : WriteOutcome := WriteOK.

Definition gofmt_ok (src : Source) : Result Source := Ok src.

Definition flags_of_types (names : string) : Flags :=
  mkFlags names "" "" false false false false false.

(** [-type=Direction -trimprefix=Direction -linecomment]. *)
Definition flags_trim_comment : Flags :=
  mkFlags "Direction" "" "Direction" true false false false false.

(** [-type=Direction -trimprefix=Direction]. *)
Definition flags_trim : Flags :=
  mkFlags "Direction" "" "Direction" false false false false false.

(** The template data of a run [-type=Status,Color -json -bitmask]. *)
Definition two_types_data : TemplateData :=
  mkTemplateData "testpkg" ["Color"; "Status"]
    (<["Color" := Color_elements]> (<["Status" := Status_elements]> ∅))
    "" false true false true "enumer -type=Color,Status -json -bitmask".

Definition tables_of (elements : list Element) : Generated.Tables :=
  default (Generated.mkTables ∅ [] ∅) (Generated.tables golang.literal elements).


(* ===================================================================== *)
(** ** Map literals *)
(* ===================================================================== *)

Section MapLiteral.
Context `{Countable K} {V : Type}.
Implicit Types (kvs : list (K * V)) (m : gmap K V).

Lemma map_literal_fold_None kvs :
  fold_left map_literal_step kvs (@None (gmap K V)) = None.
Proof. induction kvs as [|kv kvs IH]; simpl; auto. Qed.

(** Folding the literal's entries into [m0] succeeds exactly when the
    keys are pairwise distinct and fresh for [m0]. *)
Lemma map_literal_fold_Some kvs : forall m0 m,
  fold_left map_literal_step kvs (Some m0) = Some m ->
  NoDup kvs.*1 /\
  (forall k, k ∈ kvs.*1 -> m0 !! k = None) /\
  (forall k v, m !! k = Some v <-> (k, v) ∈ kvs \/ m0 !! k = Some v).
Proof.
  induction kvs as [|[k0 v0] kvs IH]; intros m0 m Hf; simpl in *.
  - inversion Hf; subst. split; [constructor|]. split.
    + intros k Hk. inversion Hk.
    + intros k v. split; [auto|]. intros [Hk|Hk]; [inversion Hk|done].
  - destruct (m0 !! k0) as [w|] eqn:Hk0.
    { rewrite map_literal_fold_None in Hf. discriminate. }
    apply IH in Hf as (Hnd & Hfresh & Hlook).
    assert (Hnin : k0 ∉ kvs.*1).
    { intros Hin. apply Hfresh in Hin. rewrite lookup_insert_eq in Hin.
      discriminate. }
    split; [by constructor|]. split.
    + intros k Hk. apply elem_of_cons in Hk as [->|Hk]; [done|].
      specialize (Hfresh k Hk).
      destruct (decide (k0 = k)) as [->|Hne]; [done|].
      by rewrite lookup_insert_ne in Hfresh.
    + intros k v. rewrite Hlook. rewrite elem_of_cons. split.
      * intros [Hin|Hin]; [auto|].
        destruct (decide (k0 = k)) as [->|Hne].
        -- rewrite lookup_insert_eq in Hin. inversion Hin; subst. auto.
        -- rewrite lookup_insert_ne in Hin by done. auto.
      * intros [[Heq|Hin]|Hin]; [|auto|].
        -- inversion Heq; subst. right. apply lookup_insert_eq.
        -- right. destruct (decide (k0 = k)) as [->|Hne]; [congruence|].
           by rewrite lookup_insert_ne.
Qed.



(** A literal that compiles holds exactly its entries. *)
Lemma map_literal_lookup kvs m k v :
  map_literal kvs = Some m ->
  m !! k = Some v <-> (k, v) ∈ kvs.
Proof.
  intros Hm. apply map_literal_fold_Some in Hm as (_ & _ & Hl).
  rewrite Hl. rewrite lookup_empty. split; [intros [?|?]; [done|discriminate]|auto].
Qed.


Lemma map_literal_lookup_None kvs m k :
  map_literal kvs = Some m ->
  m !! k = None <-> k ∉ kvs.*1.
Proof.
  intros Hm. split.
  - intros Hn Hin. apply list_elem_of_fmap in Hin as [[k' v] [-> Hin]].
    apply (map_literal_lookup _ _ _ _ Hm) in Hin. simpl in *. congruence.
  - intros Hnin. destruct (m !! k) as [v|] eqn:E; [|done].
    apply (map_literal_lookup _ _ _ _ Hm) in E. exfalso. apply Hnin.
    apply list_elem_of_fmap. by exists (k, v).
Qed.

End MapLiteral.

(* ===================================================================== *)
(** ** The lookup structures *)
(* ===================================================================== *)

Section Lookup.
Import Generated.
Variable literal : string -> option string.





















End Lookup.










(* ===================================================================== *)
(** ** The base group and the decoders built on it *)
(* ===================================================================== *)


(** C10.  [String] never fails: on a value that is no key of the
    value-to-string table it returns the type name followed by the
    decimal value in parentheses. *)
Theorem String_fallback (typeName : string) (t : Generated.Tables) (i : Z) :
  Generated._Map t !! i = None ->
  Generated.String typeName t i = typeName +:+ "(" +:+ fmt.d i +:+ ")".
Proof. intros Hi. unfold Generated.String. by rewrite Hi. Qed.

Lemma String_fallback_witness :
  Generated.String "Priority" (tables_of Priority_elements) 7 = "Priority(7)".
Proof.
  apply (String_fallback "Priority" (tables_of Priority_elements) 7).
  vm_compute. reflexivity.
Defined.

Example String_fallback_negative :
  Generated.String "Priority" (tables_of Priority_elements) (-3) = "Priority(-3)".
Proof. vm_compute. reflexivity. Qed.

(** C9.  On a string that is no key of the string-to-value table the
    parse operation returns the zero value with an error, and
    [UnmarshalJSON] (on data decoding to that string) and [Scan] (on that
    string or those bytes) leave the zero value in the receiver, whatever
    the receiver held, and return the error. *)
Theorem parse_failure_zeroes_receiver (typeName : string)
    (t : Generated.Tables) (json_Unmarshal : string -> option string)
    (i : Z) (s data : string) :
  Generated._NameToValueMap t !! s = None ->
  let err := Some (s +:+ " is not a valid " +:+ typeName) in
  Generated.TypeString typeName t s = (0, err) /\
  (json_Unmarshal data = Some s ->
     Generated.UnmarshalJSON typeName t json_Unmarshal i data = (0, err)) /\
  Generated.Scan typeName t i (Generated.AnyString s) = (0, err) /\
  Generated.Scan typeName t i (Generated.AnyBytes s) = (0, err).
Proof.
  intros Hs err.
  assert (Hp : Generated.TypeString typeName t s = (0, err)).
  { unfold Generated.TypeString. by rewrite Hs. }
  repeat split; try exact Hp.
  intros Hd. unfold Generated.UnmarshalJSON. by rewrite Hd.
Qed.

Lemma parse_failure_zeroes_receiver_witness :
  let data := String quote ("Nope" +:+ String quote "") in
  let err := Some "Nope is not a valid Status" in
  Generated.TypeString "Status" (tables_of Status_elements) "Nope" = (0, err) /\
  (json_plain data = Some "Nope" ->
   Generated.UnmarshalJSON "Status" (tables_of Status_elements) json_plain 2 data
     = (0, err)) /\
  Generated.Scan "Status" (tables_of Status_elements) 2 (Generated.AnyString "Nope")
    = (0, err) /\
  Generated.Scan "Status" (tables_of Status_elements) 2 (Generated.AnyBytes "Nope")
    = (0, err).
Proof.
  apply (parse_failure_zeroes_receiver "Status" (tables_of Status_elements)
           json_plain 2 "Nope").
  vm_compute. reflexivity.
Defined.

Example UnmarshalJSON_overwrites :
  Generated.UnmarshalJSON "Status" (tables_of Status_elements) json_plain 2
    (String quote ("Nope" +:+ String quote ""))
  = (0, Some "Nope is not a valid Status").
Proof. vm_compute. reflexivity. Qed.




(** A display string written with an escape is parsed in its unquoted
    form: the comment text [a\tb] is displayed, and parsed, as [a], a
    tab, [b]. *)
Example Scan_escaped_display_string :
  let elements := [ mkElement "A" 0 ("a" +:+ String backslash "tb") ] in
  Generated.Scan "T" (tables_of elements) 5
    (Generated.AnyString ("a" +:+ String (ascii_of_nat 9) "b")) = (0, None) /\
  snd (Generated.Scan "T" (tables_of elements) 5
         (Generated.AnyString ("a" +:+ String backslash "tb"))) <> None.
Proof. vm_compute. split; [reflexivity|discriminate]. Qed.

Example Scan_bytes_Running :
  Generated.Scan "Status" (tables_of Status_elements) 0 (Generated.AnyBytes "Running")
  = (1, None).
Proof. vm_compute. reflexivity. Qed.

Example Scan_int :
  Generated.Scan "Status" (tables_of Status_elements) 3 (Generated.AnyOther "int")
  = (3, Some "cannot scan type int into Status").
Proof. vm_compute. reflexivity. Qed.

(* ===================================================================== *)
(** ** The bitmask group *)
(* ===================================================================== *)

Section Bitmask.
Import Generated.

Lemma Set_lor (flags : list Z) : forall i, Set_ i flags = Z.lor i (Set_ 0 flags).
Proof.
  unfold Set_. induction flags as [|f flags IH]; intros i; cbn [fold_left].
  - by rewrite Z.lor_0_r.
  - rewrite (IH (Z.lor i f)), (IH (Z.lor 0 f)).
    by rewrite Z.lor_0_l, Z.lor_assoc.
Qed.

Lemma Clear_land (flags : list Z) : forall i, Clear i flags = Z.land i (Clear (-1) flags).
Proof.
  unfold Clear. induction flags as [|f flags IH]; intros i; cbn [fold_left].
  - by rewrite Z.land_m1_r.
  - rewrite (IH (Z.land i (Z.lnot f))), (IH (Z.land (-1) (Z.lnot f))).
    rewrite Z.land_m1_l. by rewrite Z.land_assoc.
Qed.

Lemma Toggle_lxor (flags : list Z) : forall i, Toggle i flags = Z.lxor i (Toggle 0 flags).
Proof.
  unfold Toggle. induction flags as [|f flags IH]; intros i; cbn [fold_left].
  - by rewrite Z.lxor_0_r.
  - rewrite (IH (Z.lxor i f)), (IH (Z.lxor 0 f)).
    by rewrite Z.lxor_0_l, Z.lxor_assoc.
Qed.

(** The three laws for any argument list of the variadic methods. *)
Lemma Set_idempotent_list i flags : Set_ (Set_ i flags) flags = Set_ i flags.
Proof.
  rewrite (Set_lor flags (Set_ i flags)), (Set_lor flags i).
  by rewrite <- Z.lor_assoc, Z.lor_diag.
Qed.

Lemma Clear_idempotent_list i flags : Clear (Clear i flags) flags = Clear i flags.
Proof.
  rewrite (Clear_land flags (Clear i flags)), (Clear_land flags i).
  by rewrite <- Z.land_assoc, Z.land_diag.
Qed.

Lemma Toggle_involutive_list i flags : Toggle (Toggle i flags) flags = i.
Proof.
  rewrite (Toggle_lxor flags (Toggle i flags)), (Toggle_lxor flags i).
  by rewrite Z.lxor_assoc, Z.lxor_nilpotent, Z.lxor_0_r.
Qed.

(** The operations stay within the integer type, so that no wrap-around
    takes part in them. *)
Lemma in_range_bits (w x : Z) : 0 < w ->
  in_range w x <-> forall n, w - 1 <= n -> Z.testbit x n = (x <? 0)%Z.
Proof.
  intros Hw. unfold in_range. split.
  - intros [Hlo Hhi] n Hn. destruct (Z.ltb_spec x 0) as [Hneg|Hpos].
    + destruct (Z.eq_dec x (-1)) as [->|Hx]; [apply Z.bits_m1; lia|].
      apply Z.bits_above_log2_neg; [done|].
      assert (H : Z.pred (- x) < 2 ^ (w - 1)) by lia.
      apply Z.log2_lt_pow2 in H; lia.
    + destruct (Z.eq_dec x 0) as [->|Hx]; [apply Z.bits_0|].
      apply Z.bits_above_log2; [done|].
      apply Z.log2_lt_pow2 in Hhi; lia.
  - intros Hbits. destruct (Z.ltb_spec x 0) as [Hneg|Hpos].
    + split; [|pose proof (Z.pow_pos_nonneg 2 (w - 1)); lia].
      destruct (Z.le_gt_cases (2 ^ (w - 1)) (Z.lnot x)) as [Hbig|Hsmall];
        [|unfold Z.lnot in Hsmall; lia].
      assert (Hy : 0 < Z.lnot x).
      { pose proof (Z.pow_pos_nonneg 2 (w - 1)). lia. }
      apply Z.log2_le_pow2 in Hbig; [|done].
      pose proof (Z.bit_log2 (Z.lnot x) Hy) as Hb.
      rewrite Z.lnot_spec in Hb by lia.
      rewrite (Hbits _ Hbig) in Hb. discriminate.
    + split; [pose proof (Z.pow_pos_nonneg 2 (w - 1)); lia|].
      destruct (Z.le_gt_cases (2 ^ (w - 1)) x) as [Hbig|Hsmall]; [|done].
      assert (Hx : 0 < x).
      { pose proof (Z.pow_pos_nonneg 2 (w - 1)). lia. }
      apply Z.log2_le_pow2 in Hbig; [|done].
      pose proof (Z.bit_log2 x Hx) as Hb.
      rewrite (Hbits _ Hbig) in Hb. discriminate.
Qed.

Lemma ltb_lor (x y : Z) : (Z.lor x y <? 0)%Z = (x <? 0)%Z || (y <? 0)%Z.
Proof.
  pose proof (Z.lor_neg x y).
  destruct (Z.ltb_spec (Z.lor x y) 0), (Z.ltb_spec x 0), (Z.ltb_spec y 0);
    simpl; try reflexivity; lia.
Qed.

Lemma ltb_land (x y : Z) : (Z.land x y <? 0)%Z = (x <? 0)%Z && (y <? 0)%Z.
Proof.
  pose proof (Z.land_neg x y).
  destruct (Z.ltb_spec (Z.land x y) 0), (Z.ltb_spec x 0), (Z.ltb_spec y 0);
    simpl; try reflexivity; lia.
Qed.

Lemma ltb_lxor (x y : Z) : (Z.lxor x y <? 0)%Z = xorb (x <? 0)%Z (y <? 0)%Z.
Proof.
  pose proof (Z.lxor_nonneg x y).
  destruct (Z.ltb_spec (Z.lxor x y) 0), (Z.ltb_spec x 0), (Z.ltb_spec y 0);
    simpl; try reflexivity; lia.
Qed.

Lemma in_range_lor w x y : 0 < w ->
  in_range w x -> in_range w y -> in_range w (Z.lor x y).
Proof.
  intros Hw Hx Hy. rewrite in_range_bits in * by done. intros n Hn.
  by rewrite Z.lor_spec, ltb_lor, Hx, Hy.
Qed.

Lemma in_range_lnot w x : in_range w x -> in_range w (Z.lnot x).
Proof. unfold in_range, Z.lnot. lia. Qed.

Lemma in_range_land w x y : 0 < w ->
  in_range w x -> in_range w y -> in_range w (Z.land x y).
Proof.
  intros Hw Hx Hy. rewrite in_range_bits in * by done. intros n Hn.
  by rewrite Z.land_spec, ltb_land, Hx, Hy.
Qed.

Lemma in_range_lxor w x y : 0 < w ->
  in_range w x -> in_range w y -> in_range w (Z.lxor x y).
Proof.
  intros Hw Hx Hy. rewrite in_range_bits in * by done. intros n Hn.
  by rewrite Z.lxor_spec, ltb_lxor, Hx, Hy.
Qed.

Lemma bitmask_in_range w flags : 0 < w -> Forall (in_range w) flags ->
  forall i, in_range w i ->
    in_range w (Set_ i flags) /\ in_range w (Clear i flags) /\
    in_range w (Toggle i flags).
Proof.
  intros Hw. unfold Set_, Clear, Toggle.
  induction 1 as [|f flags Hf _ IH]; intros i Hi; cbn [fold_left]; [done|].
  destruct (IH (Z.lor i f)) as (HS & _ & _); [by apply in_range_lor|].
  destruct (IH (Z.land i (Z.lnot f))) as (_ & HC & _).
  { apply in_range_land; [done|done|by apply in_range_lnot]. }
  destruct (IH (Z.lxor i f)) as (_ & _ & HT); [by apply in_range_lxor|].
  done.
Qed.

End Bitmask.

(** C5.  On the integer representation, [Set] of a flag twice is [Set]
    once, [Clear] of a flag twice is [Clear] once, and [Toggle] of a flag
    twice gives back the value. *)
Theorem bitmask_laws (v f : Z) :
  Generated.Set_ (Generated.Set_ v [f]) [f] = Generated.Set_ v [f] /\
  Generated.Clear (Generated.Clear v [f]) [f] = Generated.Clear v [f] /\
  Generated.Toggle (Generated.Toggle v [f]) [f] = v.
Proof.
  split; [apply Set_idempotent_list|].
  split; [apply Clear_idempotent_list|apply Toggle_involutive_list].
Qed.

Example Has_scenario : Generated.Has 1 1 = true. Proof. reflexivity. Qed.
Example HasAll_scenario : Generated.HasAll 7 [1; 2; 4] = true. Proof. reflexivity. Qed.
Example Set_then_Clear : Generated.Clear (Generated.Set_ 1 [2; 4]) [2] = 5. Proof. reflexivity. Qed.

(* ===================================================================== *)
(** ** The display string of a constant *)
(* ===================================================================== *)

Section TrimPrefix.
Import strings.

Lemma substring_0_append (p r : string) :
  substring 0 (String.length p) (p +:+ r) = p.
Proof.
  induction p as [|c p IH]; simpl.
  - by destruct r.
  - by rewrite IH.
Qed.

Lemma substring_all (r : string) : substring 0 (String.length r) r = r.
Proof. induction r as [|c r IH]; simpl; [done|by rewrite IH]. Qed.

Lemma length_append (p r : string) :
  String.length (p +:+ r) = (String.length p + String.length r)%nat.
Proof. induction p as [|c p IH]; simpl; [done|by rewrite IH]. Qed.

Lemma substring_skip_append (p r : string) (n : nat) :
  substring (String.length p) n (p +:+ r) = substring 0 n r.
Proof. induction p as [|c p IH]; simpl; [done|exact IH]. Qed.

Lemma substring_0_split (n : nat) : forall s : string,
  (n <= String.length s)%nat ->
  s = substring 0 n s +:+ substring n (String.length s - n) s.
Proof.
  induction n as [|n IH]; intros s Hn.
  - rewrite Nat.sub_0_r, substring_all. by destruct s.
  - destruct s as [|c s]; simpl in *; [lia|].
    change (String c s = String c (substring 0 n s +:+
                                   substring n (String.length s - n) s)).
    f_equal. apply IH. lia.
Qed.

(** [HasPrefix] holds exactly when the string is the prefix followed by
    something. *)
Lemma HasPrefix_iff (s prefix : string) :
  HasPrefix s prefix = true <-> exists rest, s = prefix +:+ rest.
Proof.
  unfold HasPrefix. rewrite andb_true_iff, Nat.leb_le, bool_decide_eq_true.
  split.
  - intros [Hlen Hsub].
    exists (substring (String.length prefix)
                      (String.length s - String.length prefix) s).
    rewrite <- Hsub at 1. by apply substring_0_split.
  - intros [rest ->]. split.
    + rewrite length_append. lia.
    + apply substring_0_append.
Qed.

(** Exactly one leading occurrence is removed. *)
Lemma TrimPrefix_append (prefix rest : string) :
  TrimPrefix (prefix +:+ rest) prefix = rest.
Proof.
  unfold TrimPrefix.
  rewrite (proj2 (HasPrefix_iff _ _)) by eauto.
  rewrite substring_skip_append, length_append.
  replace (String.length prefix + String.length rest - String.length prefix)%nat
    with (String.length rest) by lia.
  apply substring_all.
Qed.

Lemma TrimPrefix_no_match (s prefix : string) :
  ~ (exists rest, s = prefix +:+ rest) -> TrimPrefix s prefix = s.
Proof.
  intros Hno. unfold TrimPrefix.
  destruct (HasPrefix s prefix) eqn:E; [|done].
  apply HasPrefix_iff in E. contradiction.
Qed.

End TrimPrefix.

(** C4.  The display string of a constant.  When [-linecomment] is on
    and the constant has a trailing comment whose trimmed text is not
    empty, the display string is that trimmed text, whatever the prefix.
    Otherwise it is the declared name, without one leading occurrence of
    the prefix when the prefix is non-empty and the name starts with it,
    and unchanged when the prefix is empty or the name does not start
    with it. *)
Theorem stringValueOf_precedence (TrimSpace : string -> string)
    (flags : Flags) (name : string) (comment : option string) :
  (forall text, lineComment flags = true -> comment = Some text ->
     TrimSpace text <> "" ->
     stringValueOf TrimSpace flags name comment = TrimSpace text) /\
  ((lineComment flags = false \/ comment = None \/
    exists text, comment = Some text /\ TrimSpace text = "") ->
   (forall rest, trimPrefix flags <> "" ->
      name = trimPrefix flags +:+ rest ->
      stringValueOf TrimSpace flags name comment = rest) /\
   ((trimPrefix flags = "" \/ ~ exists rest, name = trimPrefix flags +:+ rest) ->
      stringValueOf TrimSpace flags name comment = name)).
Proof.
  split.
  - intros text Hl -> Hne. unfold stringValueOf. rewrite Hl.
    by rewrite (bool_decide_eq_true_2 _ Hne).
  - intros Hno.
    assert (Hbase : stringValueOf TrimSpace flags name comment =
              if bool_decide (trimPrefix flags <> "")
              then strings.TrimPrefix name (trimPrefix flags) else name).
    { unfold stringValueOf. destruct Hno as [Hl|[->|[text [-> Ht]]]].
      - by rewrite Hl.
      - by destruct (lineComment flags).
      - destruct (lineComment flags); [|done].
        rewrite Ht. by rewrite bool_decide_eq_false_2 by (intros Hc; by apply Hc). }
    rewrite Hbase. split.
    + intros rest Hp ->. rewrite (bool_decide_eq_true_2 _ Hp).
      apply TrimPrefix_append.
    + intros [Hp|Hp].
      * rewrite bool_decide_eq_false_2; [done|]. intros Hc. by apply Hc.
      * destruct (bool_decide _); [|done]. by apply TrimPrefix_no_match.
Qed.

Lemma stringValueOf_precedence_witness :
  stringValueOf strings.TrimSpaceASCII flags_trim_comment "DirectionNorth"
    (Some " north ") = "north" /\
  stringValueOf strings.TrimSpaceASCII flags_trim "DirectionNorth"
    (Some " north ") = "North" /\
  stringValueOf strings.TrimSpaceASCII flags_trim_comment "Red" (Some "   ") = "Red".
Proof.
  split; [|split].
  - apply (proj1 (stringValueOf_precedence strings.TrimSpaceASCII
                    flags_trim_comment "DirectionNorth" (Some " north ")) " north ").
    + reflexivity.
    + reflexivity.
    + vm_compute. discriminate.
  - apply (proj2 (stringValueOf_precedence strings.TrimSpaceASCII
                    flags_trim "DirectionNorth" (Some " north "))).
    + left. reflexivity.
    + vm_compute. discriminate.
    + reflexivity.
  - apply (proj2 (stringValueOf_precedence strings.TrimSpaceASCII
                    flags_trim_comment "Red" (Some "   "))).
    + right. right. exists "   ". split; reflexivity.
    + right. intros [rest Hrest]. vm_compute in Hrest. discriminate.
Defined.

(* ===================================================================== *)
(** ** Resolution and the run *)
(* ===================================================================== *)

Section Resolution.
Variable TrimSpace : string -> string.
Variable flags : Flags.
Variable pkg : Package.

Lemma processType_Err typeName :
  (exists msg, processType TrimSpace flags pkg typeName = Err msg) <->
  Scope pkg !! typeName = None.
Proof.
  unfold processType. destruct (Scope pkg !! typeName); split.
  - intros [msg Hm]. discriminate.
  - discriminate.
  - done.
  - eauto.
Qed.

(** The Elements of a type are the constants declared with that very
    type, each with its display string. *)
Lemma processType_elem_of typeName obj e :
  Scope pkg !! typeName = Some obj ->
  (exists elements, processType TrimSpace flags pkg typeName = Ok elements /\
                    e ∈ elements) <->
  (exists vspec name constObj,
     declares pkg vspec name /\ ident_Def name = Some constObj /\
     const_type constObj = obj_Type obj /\
     e = mkElement (ident_Name name) (const_val constObj)
           (stringValueOf TrimSpace flags (ident_Name name) (Comment vspec))).
Proof.
  intros Hty. unfold processType, declares. rewrite Hty. split.
  - intros [elements [Heq He]]. inversion Heq; subst elements. clear Heq.
    apply list_elem_of_In, in_flat_map in He as [file [Hfile He]].
    apply in_flat_map in He as [decl [Hdecl He]].
    destruct decl as [[] specs|]; simpl in He; try done.
    apply in_flat_map in He as [vspec [Hspec He]].
    unfold elementsOfSpec in He.
    apply in_flat_map in He as [name [Hname He]].
    destruct (ident_Def name) as [constObj|] eqn:Hdef; [|done].
    case_bool_decide as Hc; [|done].
    destruct He as [<-|[]].
    exists vspec, name, constObj. repeat split; try done.
    exists file, specs. by rewrite !list_elem_of_In.
  - intros (vspec & name & constObj & (file & specs & Hf & Hd & Hs & Hn)
            & Hdef & Hc & ->).
    eexists. split; [reflexivity|].
    apply list_elem_of_In, in_flat_map. exists file.
    split; [by apply list_elem_of_In|].
    apply in_flat_map. exists (GenDecl CONST specs).
    split; [by apply list_elem_of_In|]. simpl.
    apply in_flat_map. exists vspec. split; [by apply list_elem_of_In|].
    unfold elementsOfSpec. apply in_flat_map. exists name.
    split; [by apply list_elem_of_In|].
    rewrite Hdef. rewrite bool_decide_eq_true_2 by done. by left.
Qed.

(** A known type has an empty constant list exactly when no declared
    constant has a type identical to it. *)
Lemma processType_empty typeName obj :
  Scope pkg !! typeName = Some obj ->
  processType TrimSpace flags pkg typeName = Ok [] <->
  (forall vspec name constObj,
     declares pkg vspec name -> ident_Def name = Some constObj ->
     const_type constObj <> obj_Type obj).
Proof.
  intros Hty. split.
  - intros Hempty vspec name constObj Hdecl Hdef Hc.
    assert (He : exists elements,
               processType TrimSpace flags pkg typeName = Ok elements /\
               mkElement (ident_Name name) (const_val constObj)
                 (stringValueOf TrimSpace flags (ident_Name name) (Comment vspec))
                 ∈ elements).
    { apply (processType_elem_of _ obj); [done|].
      exists vspec, name, constObj. done. }
    destruct He as [elements [Heq He]]. rewrite Hempty in Heq.
    inversion Heq; subst. inversion He.
  - intros Hnone.
    destruct (processType TrimSpace flags pkg typeName) as [elements|msg] eqn:E.
    + destruct elements as [|e elements]; [done|]. exfalso.
      assert (He : exists elements',
                 processType TrimSpace flags pkg typeName = Ok elements' /\
                 e ∈ elements').
      { exists (e :: elements). split; [done|by left]. }
      apply (processType_elem_of _ obj) in He; [|done].
      destruct He as (vspec & name & constObj & Hd & Hdef & Hc & _).
      by eapply Hnone.
    + unfold processType in E. rewrite Hty in E. discriminate.
Qed.

Lemma processTypes_Err types : forall allElements,
  (exists msg, processTypes TrimSpace flags pkg types allElements = Err msg) <->
  (exists typeName, typeName ∈ types /\ unresolvable TrimSpace flags pkg typeName).
Proof.
  unfold unresolvable.
  induction types as [|T types IH]; intros acc; simpl.
  - split; [intros [? ?]; discriminate|].
    intros [T [HT _]]. inversion HT.
  - destruct (processType TrimSpace flags pkg T) as [elements|err] eqn:E.
    + destruct elements as [|e elements]; simpl.
      * split; [|eauto]. intros _. exists T. split; [left|]; auto.
      * rewrite IH. split.
        -- intros [T' [HT' H']]. exists T'. split; [by right|done].
        -- intros [T' [HT' H']]. apply elem_of_cons in HT' as [->|HT'].
           ++ destruct H' as [Hn|Hn].
              ** apply processType_Err in Hn as [msg Hn]. congruence.
              ** congruence.
           ++ eauto.
    + split; [|eauto]. intros _. exists T. split; [left|]. left.
      apply processType_Err. eauto.
Qed.

(** The message of the failure tells which of the two it was. *)
Lemma processTypes_Err_kind types : forall allElements msg,
  processTypes TrimSpace flags pkg types allElements = Err msg ->
  exists typeName, typeName ∈ types /\
    ((Scope pkg !! typeName = None /\
      msg = "Failed to process type " +:+ typeName +:+ ": " +:+
            ("type " +:+ typeName +:+ " not found")) \/
     (processType TrimSpace flags pkg typeName = Ok [] /\
      msg = "No constants found for type " +:+ typeName)).
Proof.
  induction types as [|T types IH]; intros acc msg; simpl; [discriminate|].
  destruct (processType TrimSpace flags pkg T) as [elements|err] eqn:E.
  - destruct elements as [|e elements]; simpl.
    + intros Hm. inversion Hm. exists T. split; [left|]. by right.
    + intros Hm. apply IH in Hm as [T' [HT' H']]. exists T'.
      split; [by right|done].
  - intros Hm. inversion Hm. exists T. split; [left|]. left.
    unfold processType in E. destruct (Scope pkg !! T); [discriminate|].
    by inversion E.
Qed.

End Resolution.

(** C6.  The claim fails on a name that denotes no type: in the package
    of testdata/simple_iota, [Pending] is a constant, yet [-type=Pending]
    resolves (to the constants of the type of that constant), the run
    exits normally and the file it writes declares methods on [Pending].
    [processType] looks the name up in the scope and does not ask what
    kind of object it found. *)
Theorem resolution_accepts_constant_name :
  obj_kind <$> (Scope Status_pkg !! "Pending") = Some ConstObject /\
  processType strings.TrimSpaceASCII (flags_of_types "Pending") Status_pkg "Pending"
    = Ok Status_elements /\
  fst (main strings.TrimSpaceASCII WriteFile_ok gofmt_ok strings.ToLowerASCII
         (flags_of_types "Pending") Status_pkg ∅) = ExitOK /\
  exists src,
    snd (main strings.TrimSpaceASCII WriteFile_ok gofmt_ok strings.ToLowerASCII
           (flags_of_types "Pending") Status_pkg ∅) !! "pending_enumer.go"
      = Some src /\
    TypeChunk "Pending" (Method Base "String") ∈ src /\
    TypeChunk "Pending"
      (VarValues ["Pending"; "Running"; "Success"; "Failure"]) ∈ src.
Proof.
  split; [vm_compute; reflexivity|]. split; [vm_compute; reflexivity|].
  split; [vm_compute; reflexivity|].
  eexists. split; [vm_compute; reflexivity|].
  split; apply list_elem_of_In; simpl; auto 20.
Qed.

(** What the code does: resolution stops the run exactly when some
    requested name has no object in the package scope or no constant has
    the type of its object; the run then ends in [log.Fatalf] with the
    file system as it found it.  A name with an object has no constant
    exactly when no constant declaration of the package has a type
    identical to the object's. *)
Theorem resolution_failure_cases (TrimSpace : string -> string)
    (WriteFile : string -> Source -> FS -> WriteOutcome)
    (gofmt : Source -> Result Source) (ToLower : string -> string)
    (flags : Flags) (pkg : Package) (fs : FS) :
  typeNames flags <> "" ->
  let types := sortedTypes TrimSpace flags in
  ((exists msg, processTypes TrimSpace flags pkg types ∅ = Err msg) <->
   (exists typeName, typeName ∈ types /\
      unresolvable TrimSpace flags pkg typeName)) /\
  (forall msg, processTypes TrimSpace flags pkg types ∅ = Err msg ->
     main TrimSpace WriteFile gofmt ToLower flags pkg fs = (ExitFatal msg, fs)) /\
  (forall typeName obj, Scope pkg !! typeName = Some obj ->
     (processType TrimSpace flags pkg typeName = Ok [] <->
      forall vspec name constObj,
        declares pkg vspec name -> ident_Def name = Some constObj ->
        const_type constObj <> obj_Type obj)).
Proof.
  intros Hne types.
  assert (Hlen : (String.length (typeNames flags) =? 0)%nat = false).
  { destruct (typeNames flags); [done|reflexivity]. }
  split; [apply processTypes_Err|]. split; [|apply processType_empty].
  intros msg Hm. unfold main. rewrite Hlen. fold types. by rewrite Hm.
Qed.

Lemma resolution_failure_cases_witness :
  main strings.TrimSpaceASCII WriteFile_ok gofmt_ok strings.ToLowerASCII
       (flags_of_types "Status, Missing") Status_pkg ∅
  = (ExitFatal "Failed to process type Missing: type Missing not found", ∅).
Proof.
  apply (resolution_failure_cases strings.TrimSpaceASCII WriteFile_ok gofmt_ok
           strings.ToLowerASCII
           (flags_of_types "Status, Missing") Status_pkg ∅).
  - discriminate.
  - vm_compute. reflexivity.
Defined.

Example main_empty_enum_first :
  main strings.TrimSpaceASCII WriteFile_ok gofmt_ok strings.ToLowerASCII
       (flags_of_types "Status,Empty")
       (mkPackage "testpkg"
          (<["Empty" := mkObject TypeNameObj (Named "Empty")]> (Scope Status_pkg))
          (Syntax Status_pkg)) ∅
  = (ExitFatal "No constants found for type Empty", ∅).
Proof. vm_compute. reflexivity. Qed.

Example main_empty_enum :
  main strings.TrimSpaceASCII WriteFile_ok gofmt_ok strings.ToLowerASCII
       (flags_of_types "Empty") Empty_pkg ∅
  = (ExitFatal "No constants found for type Empty", ∅).
Proof. vm_compute. reflexivity. Qed.

Example processType_Status :
  processType strings.TrimSpaceASCII (flags_of_types "Status") Status_pkg "Status"
  = Ok Status_elements.
Proof. vm_compute. reflexivity. Qed.

Example main_Status_writes :
  is_Some (snd (main strings.TrimSpaceASCII WriteFile_ok gofmt_ok
                  strings.ToLowerASCII
                  (flags_of_types "Status") Status_pkg ∅) !! "status_enumer.go").
Proof. vm_compute. eauto. Qed.

(** A write that fails ends the run with the cause, whatever the
    resolution found. *)
Example main_write_failure :
  main strings.TrimSpaceASCII
       (fun _ _ _ => WriteFailed "open /no/such/dir/x.go: no such file or directory" None)
       gofmt_ok strings.ToLowerASCII
       (mkFlags "Status" "/no/such/dir/x.go" "" false false false false false)
       Status_pkg ∅
  = (ExitFatal ("Failed to generate code: failed to write file: " +:+
                "open /no/such/dir/x.go: no such file or directory"), ∅).
Proof. vm_compute. reflexivity. Qed.

(* ===================================================================== *)
(** ** The order of the artifact *)
(* ===================================================================== *)

Section StringOrder.
Import strings.

Lemma leb_refl (a : string) : leb a a = true.
Proof.
  induction a as [|c a IH]; simpl; [done|].
  by rewrite Nat.ltb_irrefl.
Qed.

Lemma leb_trans (a : string) : forall b c,
  leb a b = true -> leb b c = true -> leb a c = true.
Proof.
  induction a as [|x a IH]; intros [|y b] [|z c]; simpl; try done.
  destruct (Nat.ltb_spec (nat_of_ascii x) (nat_of_ascii y)),
           (Nat.ltb_spec (nat_of_ascii y) (nat_of_ascii x)),
           (Nat.ltb_spec (nat_of_ascii y) (nat_of_ascii z)),
           (Nat.ltb_spec (nat_of_ascii z) (nat_of_ascii y)),
           (Nat.ltb_spec (nat_of_ascii x) (nat_of_ascii z)),
           (Nat.ltb_spec (nat_of_ascii z) (nat_of_ascii x));
    try done; try lia.
  apply IH.
Qed.

Lemma leb_antisym (a : string) : forall b,
  leb a b = true -> leb b a = true -> a = b.
Proof.
  induction a as [|x a IH]; intros [|y b]; simpl; try done.
  destruct (Nat.ltb_spec (nat_of_ascii x) (nat_of_ascii y)),
           (Nat.ltb_spec (nat_of_ascii y) (nat_of_ascii x));
    try done; try lia.
  intros Hab Hba. f_equal; [|by apply IH].
  rewrite <- (ascii_nat_embedding x), <- (ascii_nat_embedding y).
  f_equal. lia.
Qed.

Lemma leb_total (a : string) : forall b, leb a b = true \/ leb b a = true.
Proof.
  induction a as [|x a IH]; intros [|y b]; simpl; auto.
  destruct (Nat.ltb_spec (nat_of_ascii x) (nat_of_ascii y)),
           (Nat.ltb_spec (nat_of_ascii y) (nat_of_ascii x)); auto.
Qed.

End StringOrder.

#[global] Instance string_le_refl : Reflexive string_le.
Proof. intros a. apply leb_refl. Qed.
#[global] Instance string_le_trans : Transitive string_le.
Proof. intros a b c. apply leb_trans. Qed.
#[global] Instance string_le_antisym : AntiSymm (=) string_le.
Proof. intros a b. apply leb_antisym. Qed.
#[global] Instance string_le_total : Total string_le.
Proof. intros a b. apply leb_total. Qed.

Section SortStrings.

Lemma insert_Permutation x l : sort.insert x l ≡ₚ x :: l.
Proof.
  induction l as [|y l IH]; simpl; [done|].
  destruct (strings.leb x y); [done|].
  rewrite IH. apply Permutation_swap.
Qed.

Lemma insert_StronglySorted x l :
  StronglySorted string_le l -> StronglySorted string_le (sort.insert x l).
Proof.
  induction 1 as [|y l Hl IH Hy]; simpl.
  - repeat constructor.
  - destruct (strings.leb x y) eqn:E.
    + constructor; [by constructor|]. constructor; [exact E|].
      eapply Forall_impl; [exact Hy|]. intros z Hz. by transitivity y.
    + constructor; [done|].
      rewrite insert_Permutation. constructor; [|done].
      destruct (leb_total x y) as [Hxy|Hyx]; [congruence|exact Hyx].
Qed.

Lemma Strings_Permutation l : sort.Strings l ≡ₚ l.
Proof.
  induction l as [|x l IH]; simpl; [done|].
  by rewrite insert_Permutation, IH.
Qed.

Lemma Strings_StronglySorted l : StronglySorted string_le (sort.Strings l).
Proof.
  induction l as [|x l IH]; simpl; [constructor|].
  by apply insert_StronglySorted.
Qed.

(** The sorted slice depends on the names given, not on their order. *)
Lemma Strings_order_independent l l' :
  l ≡ₚ l' -> sort.Strings l = sort.Strings l'.
Proof.
  intros Hp. apply (StronglySorted_unique string_le).
  - apply Strings_StronglySorted.
  - apply Strings_StronglySorted.
  - by rewrite !Strings_Permutation.
Qed.

End SortStrings.

Section Emitter.

(** The template writes, for one type, the three lookup structures, the
    base group, then the enabled optional groups in their fixed order. *)
Lemma executeType_layout (data : TemplateData) (typeName : string) :
  executeType data typeName =
  (lookupStructures (default [] (Elements data !! typeName)) ++
   groupMethods typeName Base ++
   flat_map (groupMethods typeName)
            (List.filter (enabled data) optionalGroups))%list.
Proof.
  unfold executeType, optionalGroups, enabled.
  destruct (Bitmask data), (JSON data), (YAML data), (SQL data); reflexivity.
Qed.

Lemma chunkTypes_app (s1 s2 : Source) :
  chunkTypes (s1 ++ s2)%list = (chunkTypes s1 ++ chunkTypes s2)%list.
Proof.
  unfold chunkTypes. apply omap_app.
Qed.

Lemma chunkTypes_block (typeName : string) (items : list Item) :
  chunkTypes (map (TypeChunk typeName) items) = replicate (length items) typeName.
Proof.
  unfold chunkTypes. induction items as [|i items IH]; [done|].
  cbn [map length replicate]. rewrite <- IH. reflexivity.
Qed.

(** The blocks of the types follow one another in the order of [.Types]. *)
Lemma chunkTypes_execute (data : TemplateData) :
  chunkTypes (execute data) =
  flat_map (fun typeName => replicate (length (executeType data typeName)) typeName)
           (Types data).
Proof.
  unfold execute. rewrite chunkTypes_app.
  change (chunkTypes [Header (Command data); PackageClause (PackageName data);
                      Imports (importsOf data)]) with (@nil string).
  simpl app. induction (Types data) as [|T types IH]; simpl; [done|].
  by rewrite chunkTypes_app, chunkTypes_block, IH.
Qed.

Lemma elem_of_blocks (n : string -> nat) (types : list string) (x : string) :
  x ∈ flat_map (fun T => replicate (n T) T) types -> x ∈ types.
Proof.
  induction types as [|T types IH]; simpl; [done|].
  rewrite elem_of_app. intros [Hx|Hx].
  - apply elem_of_replicate in Hx as [-> _]. by left.
  - right. by apply IH.
Qed.

Lemma blocks_StronglySorted (n : string -> nat) (types : list string) :
  StronglySorted string_le types ->
  StronglySorted string_le (flat_map (fun T => replicate (n T) T) types).
Proof.
  induction 1 as [|T types Hs IH HT]; simpl; [constructor|].
  assert (Hall : Forall (string_le T) (flat_map (fun T => replicate (n T) T) types)).
  { apply Forall_forall. intros x Hx. apply elem_of_blocks in Hx.
    by eapply Forall_forall in HT. }
  induction (n T) as [|k IHk]; simpl; [done|].
  constructor; [done|]. apply Forall_app. split; [|done].
  apply Forall_forall. intros x Hx. apply elem_of_replicate in Hx as [-> _].
  reflexivity.
Qed.

Lemma StronglySorted_lookup_le (l : list string) : forall (i j : nat) x y,
  StronglySorted string_le l -> (i <= j)%nat ->
  l !! i = Some x -> l !! j = Some y -> string_le x y.
Proof.
  induction l as [|a l IH]; intros i j x y Hs Hij Hi Hj; [done|].
  apply StronglySorted_inv in Hs as [Hs Ha].
  destruct i as [|i], j as [|j]; simpl in *; simplify_eq.
  - reflexivity.
  - eapply Forall_forall in Ha; [exact Ha|]. by eapply list_elem_of_lookup_2.
  - lia.
  - apply (IH i j); [done|lia|done|done].
Qed.

(** In a sorted sequence the occurrences of one name are contiguous. *)
Lemma sorted_contiguous (l : list string) (i j k : nat) (T : string) :
  StronglySorted string_le l -> (i <= j <= k)%nat ->
  l !! i = Some T -> l !! k = Some T -> l !! j = Some T.
Proof.
  intros Hs [Hij Hjk] Hi Hk.
  destruct (l !! j) as [y|] eqn:Hj.
  - f_equal. apply (anti_symm string_le).
    + eapply (StronglySorted_lookup_le l j k); eauto.
    + eapply (StronglySorted_lookup_le l i j); eauto.
  - apply lookup_ge_None in Hj. apply lookup_lt_Some in Hk. lia.
Qed.

Lemma setFlag_comm (f : Flags) (a b : BoolFlag) :
  setFlag (setFlag f a) b = setFlag (setFlag f b) a.
Proof. destruct a, b; reflexivity. Qed.

Lemma flag_Parse_Permutation (args args' : list BoolFlag) :
  args ≡ₚ args' -> forall f, flag_Parse args f = flag_Parse args' f.
Proof.
  unfold flag_Parse.
  induction 1 as [|a l l' _ IH|a b l|l1 l2 l3 _ IH1 _ IH2]; intros f; simpl.
  - done.
  - apply IH.
  - by rewrite setFlag_comm.
  - by rewrite IH1, IH2.
Qed.

End Emitter.

(** C8.  The order of the artifact.  [main] hands the type names to the
    template sorted, an order that depends on the names and not on how
    they were listed; the template writes for each type, in this order,
    the three lookup structures, the base group and the enabled optional
    groups (bitmask, JSON, YAML, SQL), and the blocks of the types follow
    one another, so that chunks of one type are never separated by a
    chunk of another; the feature flags reach the template as booleans,
    the same in whatever order they were given. *)
Theorem emitter_order (TrimSpace : string -> string) (flags : Flags)
    (data : TemplateData) :
  let types := sortedTypes TrimSpace flags in
  (StronglySorted string_le types /\
   types ≡ₚ map TrimSpace (Split (typeNames flags) ",")) /\
  (forall flags', Split (typeNames flags') "," ≡ₚ Split (typeNames flags) "," ->
     sortedTypes TrimSpace flags' = types) /\
  (forall typeName,
     executeType data typeName =
     (lookupStructures (default [] (Elements data !! typeName)) ++
      groupMethods typeName Base ++
      flat_map (groupMethods typeName)
               (List.filter (enabled data) optionalGroups))%list) /\
  chunkTypes (execute data) =
    flat_map (fun typeName =>
                replicate (length (executeType data typeName)) typeName)
             (Types data) /\
  (Types data = types ->
   forall (i j k : nat) (T : string), (i <= j <= k)%nat ->
     chunkTypes (execute data) !! i = Some T ->
     chunkTypes (execute data) !! k = Some T ->
     chunkTypes (execute data) !! j = Some T) /\
  (forall args args', args ≡ₚ args' ->
     flag_Parse args flags = flag_Parse args' flags).
Proof.
  intros types. split; [|split; [|split; [|split; [|split]]]].
  - split; [apply Strings_StronglySorted|apply Strings_Permutation].
  - intros flags' Hp. unfold types, sortedTypes.
    apply Strings_order_independent. by apply Permutation_map.
  - apply executeType_layout.
  - apply chunkTypes_execute.
  - intros Ht i j k T Hijk. apply sorted_contiguous; [|done].
    rewrite chunkTypes_execute. apply blocks_StronglySorted.
    rewrite Ht. apply Strings_StronglySorted.
  - intros args args' Hp. by apply flag_Parse_Permutation.
Qed.

Lemma emitter_order_witness :
  sortedTypes strings.TrimSpaceASCII (flags_of_types "Color,Status")
    = sortedTypes strings.TrimSpaceASCII (flags_of_types "Status,Color") /\
  chunkTypes (execute two_types_data) !! 8%nat = Some "Color" /\
  flag_Parse [FlagSQL; FlagJSON] (flags_of_types "Status,Color")
    = flag_Parse [FlagJSON; FlagSQL] (flags_of_types "Status,Color").
Proof.
  pose proof (emitter_order strings.TrimSpaceASCII (flags_of_types "Status,Color")
                two_types_data) as (_ & Hnames & _ & _ & Hblock & Hflags).
  split; [|split].
  - apply Hnames.
    change ([ "Color"; "Status" ] ≡ₚ [ "Status"; "Color" ]).
    apply perm_swap.
  - apply (Hblock eq_refl 0%nat 8%nat 14%nat "Color").
    + lia.
    + reflexivity.
    + reflexivity.
  - apply Hflags. apply perm_swap.
Defined.

Example execute_two_types_owners :
  map chunkType (execute two_types_data) =
  ([None; None; None] ++ replicate 15 (Some "Color") ++ replicate 15 (Some "Status"))%list.
Proof. vm_compute. reflexivity. Qed.

(* ===================================================================== *)
(** ** The scenarios of the specification *)
(* ===================================================================== *)

Example scenario_A :
  let t := tables_of Status_elements in
  Generated.String "Status" t 2 = "Success" /\
  Generated.TypeString "Status" t "Success" = (2, None) /\
  Generated.Values t = [0; 1; 2; 3] /\
  Generated.Valid t 9 = false.
Proof. vm_compute. auto. Qed.

Example scenario_B :
  let t := tables_of RunStatus_elements in
  Generated.Has 1 1 = true /\
  Generated.HasAll 28 [4; 8; 16] = true /\
  Generated.Valid t (Z.lor 4 16) = false /\
  Generated.Valid t 28 = true.
Proof. vm_compute. auto. Qed.

Example scenario_C :
  let t := tables_of Color_elements in
  stringValueOf strings.TrimSpaceASCII flags_trim_comment "Red" (Some " red")
    = "red" /\
  Generated.String "Color" t 0 = "red" /\
  Generated.TypeString "Color" t "Red" = (0, Some "Red is not a valid Color") /\
  Generated.TypeString "Color" t "red" = (0, None).
Proof. vm_compute. auto. Qed.

Example Permission_combination :
  let t := tables_of Permission_elements in
  Generated.Valid t (Z.lor 1 2) = false /\ Generated.Valid t 1 = true.
Proof. vm_compute. auto. Qed.

(* ===================================================================== *)
(** ** Further properties of the base group *)
(* ===================================================================== *)

Section BaseGroup.
Import Generated.
Variable literal : string -> option string.






End BaseGroup.









(* ===================================================================== *)
(** ** The marshaling groups *)
(* ===================================================================== *)







(* ===================================================================== *)
(** ** Further properties of the bitmask group *)
(* ===================================================================== *)

Section BitmaskBits.
Import Generated.

(** Bit [n] of the results, in terms of the bits of the arguments. *)
Lemma testbit_Set flags n : forall i,
  Z.testbit (Set_ i flags) n
  = Z.testbit i n || existsb (fun f => Z.testbit f n) flags.
Proof.
  unfold Set_. induction flags as [|f flags IH]; intros i; cbn [fold_left existsb].
  - by rewrite orb_false_r.
  - by rewrite IH, Z.lor_spec, orb_assoc.
Qed.

Lemma testbit_Clear flags n : 0 <= n -> forall i,
  Z.testbit (Clear i flags) n
  = Z.testbit i n && negb (existsb (fun f => Z.testbit f n) flags).
Proof.
  intros Hn. unfold Clear.
  induction flags as [|f flags IH]; intros i; cbn [fold_left existsb].
  - by rewrite andb_true_r.
  - rewrite IH, Z.land_spec, Z.lnot_spec by done.
    by rewrite negb_orb, andb_assoc.
Qed.

Lemma testbit_Toggle flags n : forall i,
  Z.testbit (Toggle i flags) n
  = xorb (Z.testbit i n) (fold_right (fun f b => xorb (Z.testbit f n) b) false flags).
Proof.
  unfold Toggle. induction flags as [|f flags IH]; intros i; cbn [fold_left fold_right].
  - by rewrite xorb_false_r.
  - by rewrite IH, Z.lxor_spec, xorb_assoc.
Qed.

Lemma nonzero_bit (a : Z) : a <> 0 -> exists n, 0 <= n /\ Z.testbit a n = true.
Proof.
  intros Ha. destruct (Z.lt_trichotomy a 0) as [Hneg|[->|Hpos]]; [|done|].
  - exists (Z.succ (Z.log2 (Z.pred (- a)))). split.
    + pose proof (Z.log2_nonneg (Z.pred (- a))). lia.
    + apply Z.bits_above_log2_neg; [done|lia].
  - exists (Z.log2 a). split; [apply Z.log2_nonneg|by apply Z.bit_log2].
Qed.

(** [Has] holds when the two values share a bit. *)
Lemma Has_bits (i flag : Z) :
  Has i flag = true <->
  exists n, 0 <= n /\ Z.testbit i n = true /\ Z.testbit flag n = true.
Proof.
  unfold Has. rewrite negb_true_iff, Z.eqb_neq. split.
  - intros Hne. apply nonzero_bit in Hne as [n [Hn Hb]].
    rewrite Z.land_spec in Hb. apply andb_true_iff in Hb. eauto.
  - intros [n [Hn [Hi Hf]]] H0.
    assert (Hb : Z.testbit (Z.land i flag) n = true)
      by (by rewrite Z.land_spec, Hi, Hf).
    rewrite H0, Z.bits_0 in Hb. discriminate.
Qed.

Lemma existsb_testbit flags f n :
  f ∈ flags -> Z.testbit f n = true ->
  existsb (fun f => Z.testbit f n) flags = true.
Proof.
  intros Hf Hb. apply existsb_exists. exists f. by rewrite <- list_elem_of_In.
Qed.

Lemma Has_lor_aux (i a b : Z) : Has i (Z.lor a b) = Has i a || Has i b.
Proof.
  unfold Has. rewrite Z.land_lor_distr_r.
  destruct (Z.eqb_spec (Z.land i a) 0) as [Ha|Ha],
           (Z.eqb_spec (Z.land i b) 0) as [Hb|Hb]; simpl.
  - rewrite Ha, Hb. reflexivity.
  - apply negb_true_iff, Z.eqb_neq. rewrite Z.lor_eq_0_iff. tauto.
  - apply negb_true_iff, Z.eqb_neq. rewrite Z.lor_eq_0_iff. tauto.
  - apply negb_true_iff, Z.eqb_neq. rewrite Z.lor_eq_0_iff. tauto.
Qed.

Lemma HasAny_cons i f flags : HasAny i (f :: flags) = Has i f || HasAny i flags.
Proof. unfold Has. simpl. by destruct (negb _). Qed.

Lemma HasAny_Set i flags : HasAny i flags = Has i (Set_ 0 flags).
Proof.
  induction flags as [|f flags IH].
  - unfold Has, Set_. simpl fold_left. by rewrite Z.land_0_r.
  - rewrite HasAny_cons, IH.
    change (Set_ 0 (f :: flags)) with (Set_ (Z.lor 0 f) flags).
    by rewrite (Set_lor flags (Z.lor 0 f)), Z.lor_0_l, Has_lor_aux.
Qed.

End BitmaskBits.

(** [Has] tests for a common bit, so on a flag that combines others it
    holds as soon as one of them is set: [i.Has(a|b)] is
    [i.Has(a) || i.Has(b)]; in particular it can hold of a combined flag
    of which only a part is set. *)
Theorem Has_lor (i a b : Z) :
  Generated.Has i (Z.lor a b) = Generated.Has i a || Generated.Has i b.
Proof. apply Has_lor_aux. Qed.

(** [HasAny] holds when [Has] holds of some argument, which is [Has] of
    the OR of the arguments; [HasAll] holds when [Has] holds of every
    argument.  Without arguments [HasAny] is false and [HasAll] true. *)
Theorem HasAny_HasAll_by_Has (i : Z) (flags : list Z) :
  (Generated.HasAny i flags = true <->
     exists f, f ∈ flags /\ Generated.Has i f = true) /\
  Generated.HasAny i flags = Generated.Has i (Generated.Set_ 0 flags) /\
  (Generated.HasAll i flags = true <->
     forall f, f ∈ flags -> Generated.Has i f = true) /\
  Generated.HasAny i [] = false /\ Generated.HasAll i [] = true.
Proof.
  split; [|split; [|split; [|done]]].
  - induction flags as [|f flags IH]; simpl.
    + split; [discriminate|]. intros [f [Hf _]]. inversion Hf.
    + fold (Generated.Has i f). destruct (Generated.Has i f) eqn:E.
      * split; [|done]. intros _. exists f. split; [left|done].
      * rewrite IH. split.
        -- intros [g [Hg Hh]]. exists g. split; [by right|done].
        -- intros [g [Hg Hh]]. apply elem_of_cons in Hg as [->|Hg];
             [congruence|eauto].
  - apply HasAny_Set.
  - induction flags as [|f flags IH]; simpl.
    + split; [|done]. intros _ f Hf. inversion Hf.
    + assert (Hh : Generated.Has i f = negb (Z.land i f =? 0)%Z) by done.
      destruct (Z.land i f =? 0)%Z; simpl in Hh.
      * split; [discriminate|]. intros Hall.
        rewrite (Hall f) in Hh; [discriminate|by left].
      * rewrite IH. split.
        -- intros Hall g Hg. apply elem_of_cons in Hg as [->|Hg]; auto.
        -- intros Hall g Hg. apply Hall. by right.
Qed.

Lemma HasAny_HasAll_by_Has_witness :
  Generated.HasAny 3 [4; 8] = Generated.Has 3 (Generated.Set_ 0 [4; 8]) /\
  Generated.HasAll 3 [1; 2] = true.
Proof.
  pose proof (HasAny_HasAll_by_Has 3 [4; 8]) as (_ & Hany & _).
  pose proof (HasAny_HasAll_by_Has 3 [1; 2]) as (_ & _ & Hall & _).
  split; [exact Hany|]. apply Hall.
  intros f Hf. apply list_elem_of_In in Hf. simpl in Hf.
  destruct Hf as [<-|[<-|[]]]; reflexivity.
Defined.

Section BitmaskCompose.
Import Generated.

Lemma Set_Permutation flags flags' :
  flags ≡ₚ flags' -> forall i, Set_ i flags = Set_ i flags'.
Proof.
  unfold Set_. induction 1 as [|f l l' _ IH|a b l|l1 l2 l3 _ IH1 _ IH2];
    intros i; cbn [fold_left]; [done|apply IH| |by rewrite IH1, IH2].
  by rewrite <- !Z.lor_assoc, (Z.lor_comm b a).
Qed.

Lemma Clear_Permutation flags flags' :
  flags ≡ₚ flags' -> forall i, Clear i flags = Clear i flags'.
Proof.
  unfold Clear. induction 1 as [|f l l' _ IH|a b l|l1 l2 l3 _ IH1 _ IH2];
    intros i; cbn [fold_left]; [done|apply IH| |by rewrite IH1, IH2].
  by rewrite <- !Z.land_assoc, (Z.land_comm (Z.lnot b)).
Qed.

Lemma Toggle_Permutation flags flags' :
  flags ≡ₚ flags' -> forall i, Toggle i flags = Toggle i flags'.
Proof.
  unfold Toggle. induction 1 as [|f l l' _ IH|a b l|l1 l2 l3 _ IH1 _ IH2];
    intros i; cbn [fold_left]; [done|apply IH| |by rewrite IH1, IH2].
  by rewrite !Z.lxor_assoc, (Z.lxor_comm b a).
Qed.

Lemma Clear_Set i flags : Clear (Set_ i flags) flags = Clear i flags.
Proof.
  apply Z.bits_inj'. intros n Hn.
  rewrite !testbit_Clear, testbit_Set by done.
  by destruct (Z.testbit i n), (existsb _ flags).
Qed.

Lemma Set_Clear i flags : Set_ (Clear i flags) flags = Set_ i flags.
Proof.
  apply Z.bits_inj'. intros n Hn.
  rewrite !testbit_Set, testbit_Clear by done.
  by destruct (Z.testbit i n), (existsb _ flags).
Qed.

Lemma Has_Set i flags f : f ∈ flags -> f <> 0 -> Has (Set_ i flags) f = true.
Proof.
  intros Hf Hne. apply nonzero_bit in Hne as [n [Hn Hb]].
  apply Has_bits. exists n. split; [done|]. split; [|done].
  rewrite testbit_Set, (existsb_testbit flags f n) by done.
  apply orb_true_r.
Qed.

Lemma Has_Clear i flags f : f ∈ flags -> Has (Clear i flags) f = false.
Proof.
  intros Hf. destruct (Has (Clear i flags) f) eqn:E; [|done].
  apply Has_bits in E as [n [Hn [Hc Hb]]].
  rewrite testbit_Clear, (existsb_testbit flags f n) in Hc by done.
  by rewrite andb_false_r in Hc.
Qed.

End BitmaskCompose.

(** The bits of the results: [Set] turns on the bits of every argument,
    [Clear] turns them off, [Toggle] flips a bit once for each argument
    that has it; the other bits are those of the receiver. *)
Theorem bitmask_bits (i : Z) (flags : list Z) (n : Z) :
  0 <= n ->
  Z.testbit (Generated.Set_ i flags) n
    = Z.testbit i n || existsb (fun f => Z.testbit f n) flags /\
  Z.testbit (Generated.Clear i flags) n
    = Z.testbit i n && negb (existsb (fun f => Z.testbit f n) flags) /\
  Z.testbit (Generated.Toggle i flags) n
    = xorb (Z.testbit i n)
           (fold_right (fun f b => xorb (Z.testbit f n) b) false flags).
Proof.
  intros Hn. split; [apply testbit_Set|].
  split; [by apply testbit_Clear|apply testbit_Toggle].
Qed.

Lemma bitmask_bits_witness :
  Z.testbit (Generated.Set_ 1 [2; 4]) 1 = true /\
  Z.testbit (Generated.Clear 7 [2; 4]) 1 = false /\
  Z.testbit (Generated.Toggle 7 [2; 2]) 1 = true.
Proof.
  assert (H01 : 0 <= 1) by lia.
  pose proof (bitmask_bits 1 [2; 4] 1 H01) as (H1 & _).
  pose proof (bitmask_bits 7 [2; 4] 1 H01) as (_ & H2 & _).
  pose proof (bitmask_bits 7 [2; 2] 1 H01) as (_ & _ & H3).
  rewrite H1, H2, H3. auto.
Defined.

(** The variadic methods do not depend on the order of their
    arguments. *)
Theorem bitmask_argument_order (i : Z) (flags flags' : list Z) :
  flags ≡ₚ flags' ->
  Generated.Set_ i flags = Generated.Set_ i flags' /\
  Generated.Clear i flags = Generated.Clear i flags' /\
  Generated.Toggle i flags = Generated.Toggle i flags'.
Proof.
  intros Hp. split; [by apply Set_Permutation|].
  split; [by apply Clear_Permutation|by apply Toggle_Permutation].
Qed.

Lemma bitmask_argument_order_witness :
  Generated.Set_ 8 [1; 2; 4] = Generated.Set_ 8 [2; 1; 4] /\
  Generated.Clear 15 [1; 2; 4] = Generated.Clear 15 [2; 1; 4] /\
  Generated.Toggle 5 [1; 2; 4] = Generated.Toggle 5 [2; 1; 4].
Proof.
  split; [|split].
  - apply (bitmask_argument_order 8 [1; 2; 4] [2; 1; 4]). apply perm_swap.
  - apply (bitmask_argument_order 15 [1; 2; 4] [2; 1; 4]). apply perm_swap.
  - apply (bitmask_argument_order 5 [1; 2; 4] [2; 1; 4]). apply perm_swap.
Defined.

(** [Set] and [Clear] of the same flags undo one another's effect on
    those flags: clearing after setting is clearing, setting after
    clearing is setting.  After [Set], [Has] holds of every non-zero
    argument; after [Clear], of none of the arguments. *)
Theorem Set_Clear_compose (i : Z) (flags : list Z) :
  Generated.Clear (Generated.Set_ i flags) flags = Generated.Clear i flags /\
  Generated.Set_ (Generated.Clear i flags) flags = Generated.Set_ i flags /\
  (forall f, f ∈ flags -> f <> 0 ->
     Generated.Has (Generated.Set_ i flags) f = true) /\
  (forall f, f ∈ flags -> Generated.Has (Generated.Clear i flags) f = false).
Proof.
  split; [apply Clear_Set|]. split; [apply Set_Clear|].
  split; [apply Has_Set|apply Has_Clear].
Qed.

Lemma Set_Clear_compose_witness :
  Generated.Has (Generated.Set_ 1 [2; 4]) 4 = true /\
  Generated.Has (Generated.Clear 7 [2; 4]) 4 = false.
Proof.
  pose proof (Set_Clear_compose 1 [2; 4]) as (_ & _ & HS & _).
  pose proof (Set_Clear_compose 7 [2; 4]) as (_ & _ & _ & HC).
  assert (Hin : 4 ∈ [2; 4]) by (apply list_elem_of_In; simpl; auto).
  split; [apply HS; [exact Hin|lia]|apply HC; exact Hin].
Defined.

(** On a signed integer type of [w] bits the three methods stay within
    the type when the receiver and the arguments are within it. *)
Theorem bitmask_stays_in_range (w : Z) (flags : list Z) (i : Z) :
  0 < w -> Forall (Generated.in_range w) flags -> Generated.in_range w i ->
  Generated.in_range w (Generated.Set_ i flags) /\
  Generated.in_range w (Generated.Clear i flags) /\
  Generated.in_range w (Generated.Toggle i flags).
Proof. intros Hw Hf Hi. by apply bitmask_in_range. Qed.

Lemma bitmask_stays_in_range_witness :
  Generated.in_range 8 (Generated.Set_ (-128) [127; 1]) /\
  Generated.in_range 8 (Generated.Clear (-128) [127; 1]) /\
  Generated.in_range 8 (Generated.Toggle (-128) [127; 1]).
Proof.
  apply (bitmask_stays_in_range 8 [127; 1] (-128)).
  - lia.
  - repeat constructor; unfold Generated.in_range; simpl; lia.
  - unfold Generated.in_range. simpl. lia.
Defined.

(* ===================================================================== *)
(** ** Further properties of the run *)
(* ===================================================================== *)

Section Run.
Variable TrimSpace : string -> string.
Variable WriteFile : string -> Source -> FS -> WriteOutcome.
Variable gofmt : Source -> Result Source.
Variable ToLower : string -> string.

Lemma Split_nonempty (s : string) (sep : ascii) : Split s sep <> [].
Proof.
  destruct s as [|c s]; simpl; [done|].
  case_bool_decide; [done|]. by destruct (Split s sep).
Qed.

Lemma Split_empty (s : string) (sep : ascii) :
  Split s sep = [""] -> s = "".
Proof.
  destruct s as [|c s]; simpl; [done|]. case_bool_decide.
  - intros Heq. inversion Heq as [Hs]. by apply Split_nonempty in Hs.
  - destruct (Split s sep); discriminate.
Qed.

(** The loop keeps, for every type it has passed, the non-empty Elements
    that [processType] returned for it, and leaves the other entries of
    the map alone. *)
Lemma processTypes_Ok flags pkg types : forall acc allElements,
  processTypes TrimSpace flags pkg types acc = Ok allElements ->
  (forall typeName, typeName ∈ types ->
     exists elements, allElements !! typeName = Some elements /\
       processType TrimSpace flags pkg typeName = Ok elements /\
       elements <> []) /\
  (forall typeName, typeName ∉ types ->
     allElements !! typeName = acc !! typeName).
Proof.
  induction types as [|T types IH]; intros acc allElements; simpl.
  - intros Heq. inversion Heq; subst. split; [|done].
    intros T HT. inversion HT.
  - destruct (processType TrimSpace flags pkg T) as [elements|err] eqn:E;
      [|discriminate].
    destruct elements as [|e elements]; simpl; [discriminate|].
    intros Hrest. apply IH in Hrest as [Hin Hout]. split.
    + intros T' HT'. destruct (decide (T' ∈ types)) as [Hd|Hd]; [by apply Hin|].
      apply elem_of_cons in HT' as [->|HT']; [|done].
      exists (e :: elements). rewrite (Hout T Hd), lookup_insert_eq. done.
    + intros T' HT'. apply not_elem_of_cons in HT' as [Hne Hnin].
      rewrite (Hout T' Hnin). by rewrite lookup_insert_ne.
Qed.

Lemma main_cases flags pkg fs :
  typeNames flags <> "" ->
  main TrimSpace WriteFile gofmt ToLower flags pkg fs =
  let types := sortedTypes TrimSpace flags in
  let outputName := outputNameOf ToLower flags types in
  match processTypes TrimSpace flags pkg types ∅ with
  | Err msg => (ExitFatal msg, fs)
  | Ok allElements =>
      let data := mkTemplateData (PkgName pkg) types allElements
                    (trimPrefix flags) (sqlFlag flags) (jsonFlag flags)
                    (yamlFlag flags) (bitmaskFlag flags)
                    (buildCommandString flags types outputName) in
      match WriteFile outputName (execute data) fs with
      | WriteFailed err behind =>
          (ExitFatal ("Failed to generate code: " +:+
                      ("failed to write file: " +:+ err)),
           match behind with
           | Some text => <[outputName := text]> fs
           | None => fs
           end)
      | WriteOK =>
          match gofmt (execute data) with
          | Err err =>
              (ExitFatal ("Failed to generate code: " +:+
                          ("failed to format file: " +:+ err)),
               <[outputName := execute data]> fs)
          | Ok formatted =>
              (ExitOK,
               <[outputName := formatted]> (<[outputName := execute data]> fs))
          end
      end
  end.
Proof.
  intros Hne. unfold main, generateCode.
  destruct (typeNames flags) as [|c s]; [done|]. simpl.
  destruct (processTypes _ _ _ _ _); [|done].
  destruct (WriteFile _ _ _); [|done].
  by destruct (gofmt _).
Qed.

End Run.

(** What reaches the template: when the loop of [main] succeeds, every
    requested type has in [allElements] the non-empty Elements that
    [processType] returned for it, and no other type has an entry. *)
Theorem processTypes_collects (TrimSpace : string -> string) (flags : Flags)
    (pkg : Package) (types : list string)
    (allElements : gmap string (list Element)) :
  processTypes TrimSpace flags pkg types ∅ = Ok allElements ->
  (forall typeName, typeName ∈ types ->
     exists elements, allElements !! typeName = Some elements /\
       processType TrimSpace flags pkg typeName = Ok elements /\
       elements <> []) /\
  (forall typeName, typeName ∉ types -> allElements !! typeName = None).
Proof.
  intros Hok. apply processTypes_Ok in Hok as [Hin Hout]. split; [done|].
  intros T HT. by rewrite (Hout T HT).
Qed.

Lemma processTypes_collects_witness :
  (forall typeName, typeName ∈ ["Status"] ->
     exists elements,
       ({[ "Status" := Status_elements ]} : gmap string (list Element))
         !! typeName = Some elements /\
       processType strings.TrimSpaceASCII (flags_of_types "Status") Status_pkg
         typeName = Ok elements /\
       elements <> []) /\
  (forall typeName, typeName ∉ ["Status"] ->
     ({[ "Status" := Status_elements ]} : gmap string (list Element))
       !! typeName = None).
Proof.
  apply (processTypes_collects strings.TrimSpaceASCII (flags_of_types "Status")
           Status_pkg ["Status"] {[ "Status" := Status_elements ]}).
  vm_compute. reflexivity.
Defined.

(** A run changes no file but the output file: every other path of the
    file system holds after [main] what it held before, however the run
    ends. *)
Theorem main_writes_only_output (TrimSpace : string -> string)
    (WriteFile : string -> Source -> FS -> WriteOutcome)
    (gofmt : Source -> Result Source) (ToLower : string -> string)
    (flags : Flags) (pkg : Package) (fs : FS) (path : string) :
  path <> outputNameOf ToLower flags (sortedTypes TrimSpace flags) ->
  snd (main TrimSpace WriteFile gofmt ToLower flags pkg fs) !! path = fs !! path.
Proof.
  intros Hpath. unfold main.
  destruct (String.length (typeNames flags) =? 0)%nat; [done|].
  destruct (processTypes _ _ _ _ _); [|done].
  unfold generateCode, FS in *.
  destruct (WriteFile _ _ _) as [|err [text|]]; simpl.
  - destruct (gofmt _); simpl; by rewrite !lookup_insert_ne.
  - by rewrite lookup_insert_ne.
  - done.
Qed.

Lemma main_writes_only_output_witness :
  snd (main strings.TrimSpaceASCII WriteFile_ok gofmt_ok strings.ToLowerASCII
         (flags_of_types "Status") Status_pkg
         {[ "types.go" := [PackageClause "testpkg"] ]}) !! "types.go"
  = ({[ "types.go" := [PackageClause "testpkg"] ]} : FS) !! "types.go".
Proof.
  apply (main_writes_only_output strings.TrimSpaceASCII WriteFile_ok gofmt_ok
           strings.ToLowerASCII (flags_of_types "Status") Status_pkg
           {[ "types.go" := [PackageClause "testpkg"] ]} "types.go").
  vm_compute. discriminate.
Defined.

(** When [gofmt] fails after the file was written the run ends in
    [log.Fatalf] with the cause [gofmt] gave, and the file stays behind
    with the unformatted text. *)
Theorem main_gofmt_failure (TrimSpace : string -> string)
    (WriteFile : string -> Source -> FS -> WriteOutcome)
    (gofmt : Source -> Result Source) (ToLower : string -> string)
    (flags : Flags) (pkg : Package) (fs : FS)
    (allElements : gmap string (list Element)) (cause : string) :
  typeNames flags <> "" ->
  let types := sortedTypes TrimSpace flags in
  let outputName := outputNameOf ToLower flags types in
  let data := mkTemplateData (PkgName pkg) types allElements
                (trimPrefix flags) (sqlFlag flags) (jsonFlag flags)
                (yamlFlag flags) (bitmaskFlag flags)
                (buildCommandString flags types outputName) in
  processTypes TrimSpace flags pkg types ∅ = Ok allElements ->
  WriteFile outputName (execute data) fs = WriteOK ->
  gofmt (execute data) = Err cause ->
  fst (main TrimSpace WriteFile gofmt ToLower flags pkg fs)
    = ExitFatal ("Failed to generate code: " +:+
                 ("failed to format file: " +:+ cause)) /\
  snd (main TrimSpace WriteFile gofmt ToLower flags pkg fs) !! outputName
    = Some (execute data).
Proof.
  intros Hne types outputName data Hok Hwrite Hfmt.
  rewrite main_cases by done. cbv zeta. fold types outputName.
  rewrite Hok. fold data. rewrite Hwrite, Hfmt. simpl. split; [done|].
  unfold FS in *. apply lookup_insert_eq.
Qed.

Lemma main_gofmt_failure_witness :
  fst (main strings.TrimSpaceASCII WriteFile_ok (fun _ => Err "exit status 2")
         strings.ToLowerASCII (flags_of_types "Status") Status_pkg ∅)
    = ExitFatal "Failed to generate code: failed to format file: exit status 2" /\
  is_Some (snd (main strings.TrimSpaceASCII WriteFile_ok
                  (fun _ => Err "exit status 2") strings.ToLowerASCII
                  (flags_of_types "Status") Status_pkg ∅) !! "status_enumer.go").
Proof.
  pose proof (main_gofmt_failure strings.TrimSpaceASCII WriteFile_ok
                (fun _ => Err "exit status 2")
                strings.ToLowerASCII (flags_of_types "Status") Status_pkg ∅
                {[ "Status" := Status_elements ]} "exit status 2") as H.
  destruct H as [H1 H2].
  - discriminate.
  - vm_compute. reflexivity.
  - reflexivity.
  - reflexivity.
  - split; [exact H1|]. eexists. exact H2.
Defined.

Section TypeOrder.
Variable TrimSpace : string -> string.

Lemma sortedTypes_withTypeNames f names names' :
  Split names "," ≡ₚ Split names' "," ->
  sortedTypes TrimSpace (withTypeNames f names)
  = sortedTypes TrimSpace (withTypeNames f names').
Proof.
  intros Hp. unfold sortedTypes. simpl.
  apply Strings_order_independent. by apply Permutation_map.
Qed.

Lemma typeNames_empty_Permutation names names' :
  Split names "," ≡ₚ Split names' "," -> names = "" -> names' = "".
Proof.
  intros Hp ->. simpl in Hp. apply Permutation_singleton_l in Hp.
  symmetry in Hp. by apply Split_empty in Hp.
Qed.

End TypeOrder.

(** The run does not depend on the order in which [-type] lists the
    names: two argument strings with the same names, in any order, give
    the same exit and the same files, header included. *)
Theorem main_type_order (TrimSpace : string -> string)
    (WriteFile : string -> Source -> FS -> WriteOutcome)
    (gofmt : Source -> Result Source) (ToLower : string -> string)
    (f : Flags) (names names' : string) (pkg : Package) (fs : FS) :
  Split names "," ≡ₚ Split names' "," ->
  main TrimSpace WriteFile gofmt ToLower (withTypeNames f names) pkg fs
  = main TrimSpace WriteFile gofmt ToLower (withTypeNames f names') pkg fs.
Proof.
  intros Hp.
  destruct (decide (names = "")) as [Hn|Hn].
  { rewrite (typeNames_empty_Permutation _ _ Hp Hn). by subst. }
  assert (Hn' : names' <> "").
  { intros Hn'. apply Hn. symmetry in Hp.
    by apply (typeNames_empty_Permutation _ _ Hp). }
  rewrite !main_cases by done. cbv zeta.
  rewrite (sortedTypes_withTypeNames TrimSpace f names names' Hp).
  reflexivity.
Qed.

Lemma main_type_order_witness :
  main strings.TrimSpaceASCII WriteFile_ok gofmt_ok strings.ToLowerASCII
       (withTypeNames (flags_of_types "") "Status,Missing") Status_pkg ∅
  = main strings.TrimSpaceASCII WriteFile_ok gofmt_ok strings.ToLowerASCII
       (withTypeNames (flags_of_types "") "Missing,Status") Status_pkg ∅.
Proof.
  apply (main_type_order strings.TrimSpaceASCII WriteFile_ok gofmt_ok
           strings.ToLowerASCII
           (flags_of_types "") "Status,Missing" "Missing,Status" Status_pkg ∅).
  change (["Status"; "Missing"] ≡ₚ ["Missing"; "Status"]). apply perm_swap.
Defined.

(* ===================================================================== *)
(** ** Further properties of the resolver *)
(* ===================================================================== *)

Section Resolver.
Variable TrimSpace : string -> string.
Variable flags : Flags.

Lemma flat_map_flat_map {A B C : Type} (f : A -> list B) (g : B -> list C)
    (l : list A) :
  flat_map g (flat_map f l) = flat_map (fun x => flat_map g (f x)) l.
Proof.
  induction l as [|x l IH]; simpl; [done|].
  by rewrite flat_map_app, IH.
Qed.

Lemma flat_map_ext' {A B : Type} (f g : A -> list B) (l : list A) :
  (forall x, f x = g x) -> flat_map f l = flat_map g l.
Proof. intros Hfg. induction l as [|x l IH]; simpl; [done|]. by rewrite Hfg, IH. Qed.

Lemma flat_map_map' {A B C : Type} (f : A -> B) (g : B -> list C) (l : list A) :
  flat_map g (map f l) = flat_map (fun x => g (f x)) l.
Proof. induction l as [|x l IH]; simpl; [done|]. by rewrite IH. Qed.

Lemma processType_constNames pkg typeName obj :
  Scope pkg !! typeName = Some obj ->
  processType TrimSpace flags pkg typeName
  = Ok (flat_map (elementOfName TrimSpace flags (obj_Type obj)) (constNames pkg)).
Proof.
  intros Hty. unfold processType, constNames. rewrite Hty. cbv zeta. f_equal.
  rewrite flat_map_flat_map. apply flat_map_ext'. intros file.
  rewrite flat_map_flat_map. apply flat_map_ext'. intros decl.
  destruct decl as [[] specs|]; simpl; try done.
  rewrite flat_map_flat_map. apply flat_map_ext'. intros vspec.
  unfold elementsOfSpec. by rewrite flat_map_map'.
Qed.

Lemma Names_elementOfName targetType (l : list (ValueSpec * Ident)) :
  map Name (flat_map (elementOfName TrimSpace flags targetType) l)
  = map (fun p => ident_Name p.2) (List.filter (hasType targetType) l).
Proof.
  induction l as [|p l IH]; simpl; [done|].
  rewrite map_app, IH. unfold elementOfName at 1. unfold hasType at 2.
  destruct (ident_Def p.2) as [c|]; [|done]. simpl.
  by destruct (bool_decide (const_type c = targetType)).
Qed.

Lemma Values_elementOfName targetType (l : list (ValueSpec * Ident)) :
  map (fun e => Some (Value e)) (flat_map (elementOfName TrimSpace flags targetType) l)
  = map (fun p => const_val <$> ident_Def p.2) (List.filter (hasType targetType) l).
Proof.
  induction l as [|p l IH]; simpl; [done|].
  rewrite map_app, IH. unfold elementOfName at 1. unfold hasType at 2.
  destruct (ident_Def p.2) as [c|] eqn:E; [|done]. simpl.
  destruct (bool_decide (const_type c = targetType)); simpl; [|done].
  by rewrite E.
Qed.

End Resolver.

(** The enumeration contract of the resolver: the Elements of a name
    that the scope knows are the constant names of the package whose type
    is identical to the type of its object, one Element per name, in
    source order, each with the name and the value of its constant. *)
Theorem processType_in_source_order (TrimSpace : string -> string)
    (flags : Flags) (pkg : Package) (typeName : string) (obj : Object) :
  Scope pkg !! typeName = Some obj ->
  exists elements,
    processType TrimSpace flags pkg typeName = Ok elements /\
    map Name elements
      = map (fun p => ident_Name p.2)
            (List.filter (hasType (obj_Type obj)) (constNames pkg)) /\
    map (fun e => Some (Value e)) elements
      = map (fun p => const_val <$> ident_Def p.2)
            (List.filter (hasType (obj_Type obj)) (constNames pkg)).
Proof.
  intros Hty. eexists. split; [by apply processType_constNames|].
  split; [apply Names_elementOfName|apply Values_elementOfName].
Qed.

Lemma processType_in_source_order_witness :
  exists elements,
    processType strings.TrimSpaceASCII (flags_of_types "Status") Status_pkg "Status"
      = Ok elements /\
    map Name elements
      = map (fun p => ident_Name p.2)
            (List.filter (hasType (Named "Status")) (constNames Status_pkg)) /\
    map (fun e => Some (Value e)) elements
      = map (fun p => const_val <$> ident_Def p.2)
            (List.filter (hasType (Named "Status")) (constNames Status_pkg)).
Proof.
  apply (processType_in_source_order strings.TrimSpaceASCII
           (flags_of_types "Status") Status_pkg "Status"
           (mkObject TypeNameObj (Named "Status"))).
  vm_compute. reflexivity.
Defined.

(** An Element belongs to the list of a name that the scope knows
    exactly when some constant declaration of the package declares its
    name with a type identical to the type of the object; its value is
    the constant's and its display string the one derived from the name
    and the trailing comment. *)
Theorem processType_membership (TrimSpace : string -> string) (flags : Flags)
    (pkg : Package) (typeName : string) (obj : Object) (e : Element) :
  Scope pkg !! typeName = Some obj ->
  (exists elements, processType TrimSpace flags pkg typeName = Ok elements /\
                    e ∈ elements) <->
  (exists vspec name constObj,
     declares pkg vspec name /\ ident_Def name = Some constObj /\
     const_type constObj = obj_Type obj /\
     e = mkElement (ident_Name name) (const_val constObj)
           (stringValueOf TrimSpace flags (ident_Name name) (Comment vspec))).
Proof. apply processType_elem_of. Qed.

Lemma processType_membership_witness :
  (exists elements,
     processType strings.TrimSpaceASCII (flags_of_types "Status") Status_pkg
       "Status" = Ok elements /\
     mkElement "Running" 1 "Running" ∈ elements) <->
  (exists vspec name constObj,
     declares Status_pkg vspec name /\ ident_Def name = Some constObj /\
     const_type constObj = Named "Status" /\
     mkElement "Running" 1 "Running"
     = mkElement (ident_Name name) (const_val constObj)
         (stringValueOf strings.TrimSpaceASCII (flags_of_types "Status")
            (ident_Name name) (Comment vspec))).
Proof.
  apply (processType_membership strings.TrimSpaceASCII (flags_of_types "Status")
           Status_pkg "Status" (mkObject TypeNameObj (Named "Status"))
           (mkElement "Running" 1 "Running")).
  vm_compute. reflexivity.
Defined.

Lemma append_empty_r (s : string) : s +:+ "" = s.
Proof.
  induction s as [|c s IH]; [done|].
  change (String c (s +:+ "") = String c s). by rewrite IH.
Qed.

(** The display string is empty in one case only: a constant that has
    a name, and no comment taking over, is displayed as the empty string
    exactly when its name is the prefix to trim. *)
Theorem stringValueOf_empty (TrimSpace : string -> string) (flags : Flags)
    (name : string) (comment : option string) :
  name <> "" ->
  (lineComment flags = false \/ comment = None \/
   exists text, comment = Some text /\ TrimSpace text = "") ->
  stringValueOf TrimSpace flags name comment = "" <-> trimPrefix flags = name.
Proof.
  intros Hname Hno.
  assert (Hbase : stringValueOf TrimSpace flags name comment =
            if bool_decide (trimPrefix flags <> "")
            then strings.TrimPrefix name (trimPrefix flags) else name).
  { unfold stringValueOf. destruct Hno as [Hl|[->|[text [-> Ht]]]].
    - by rewrite Hl.
    - by destruct (lineComment flags).
    - destruct (lineComment flags); [|done].
      rewrite Ht. by rewrite bool_decide_eq_false_2 by (intros Hc; by apply Hc). }
  rewrite Hbase. case_bool_decide as Hp.
  - split.
    + intros Hempty.
      destruct (strings.HasPrefix name (trimPrefix flags)) eqn:E.
      * apply HasPrefix_iff in E as [rest Hrest].
        rewrite Hrest, TrimPrefix_append in Hempty.
        rewrite Hrest, Hempty. by rewrite append_empty_r.
      * rewrite TrimPrefix_no_match in Hempty; [done|].
        intros Hex. apply HasPrefix_iff in Hex. congruence.
    + intros <-.
      rewrite <- (append_empty_r (trimPrefix flags)) at 1.
      apply TrimPrefix_append.
  - split; [done|]. intros Heq. exfalso. apply Hname. rewrite <- Heq.
    destruct (decide (trimPrefix flags = "")); [done|]. contradiction.
Qed.

Lemma stringValueOf_empty_witness :
  stringValueOf strings.TrimSpaceASCII flags_trim "Direction" None = "" <->
  trimPrefix flags_trim = "Direction".
Proof.
  apply (stringValueOf_empty strings.TrimSpaceASCII flags_trim "Direction" None).
  - discriminate.
  - left. reflexivity.
Defined.

(* ===================================================================== *)
(** ** Further properties of the template *)
(* ===================================================================== *)

Section Template.

Lemma elem_of_execute (data : TemplateData) (typeName : string) (item : Item) :
  TypeChunk typeName item ∈ execute data <->
  typeName ∈ Types data /\ item ∈ executeType data typeName.
Proof.
  unfold execute. rewrite elem_of_app. split.
  - intros [Hpre|Hbody].
    + apply list_elem_of_In in Hpre. simpl in Hpre.
      destruct Hpre as [?|[?|[?|[]]]]; discriminate.
    + apply list_elem_of_In, in_flat_map in Hbody as [T [HT Hin]].
      apply in_map_iff in Hin as [it [Heq Hit]]. inversion Heq; subst.
      by rewrite !list_elem_of_In.
  - intros [HT Hit]. right. apply list_elem_of_In, in_flat_map.
    exists typeName. split; [by apply list_elem_of_In|].
    apply in_map. by apply list_elem_of_In.
Qed.

Lemma Method_in_executeType (data : TemplateData) (typeName : string)
    (g : Group) (name : string) :
  Method g name ∈ executeType data typeName -> enabled data g = true.
Proof.
  rewrite executeType_layout, !elem_of_app. intros [Hl|[Hb|Ho]].
  - apply list_elem_of_In in Hl. simpl in Hl.
    destruct Hl as [?|[?|[?|[]]]]; discriminate.
  - apply list_elem_of_In, in_map_iff in Hb as [n [Heq _]].
    by inversion Heq.
  - apply list_elem_of_In, in_flat_map in Ho as [g' [Hg' Hin]].
    apply filter_In in Hg' as [_ Hen].
    apply in_map_iff in Hin as [n [Heq _]]. by inversion Heq; subst.
Qed.

Lemma first_method_of_group (data : TemplateData) (typeName : string) (g : Group) :
  enabled data g = true ->
  exists name, Method g name ∈ executeType data typeName.
Proof.
  intros Hen. unfold executeType.
  destruct g; simpl in Hen; try rewrite Hen.
  - exists "String". apply list_elem_of_In. simpl. auto.
  - exists "Has". apply list_elem_of_In. simpl. auto 10.
  - exists "MarshalJSON". apply list_elem_of_In, in_or_app. right.
    apply in_or_app. right. simpl. auto.
  - exists "MarshalYAML". apply list_elem_of_In, in_or_app. right.
    apply in_or_app. right. apply in_or_app. right. simpl. auto.
  - exists "Scan". apply list_elem_of_In, in_or_app. right.
    apply in_or_app. right. apply in_or_app. right. apply in_or_app. right.
    simpl. auto.
Qed.

Lemma importsOf_enabled (data : TemplateData) (path : string) :
  path ∈ importsOf data <->
  exists g, enabled data g = true /\ path ∈ groupImports g.
Proof.
  unfold importsOf. split.
  - intros Hp. apply list_elem_of_In in Hp.
    destruct (SQL data) eqn:HS, (JSON data) eqn:HJ, (YAML data) eqn:HY;
      simpl in Hp;
      repeat (destruct Hp as [<-|Hp];
              [first [ exists Base; split; [done|apply list_elem_of_In; simpl; tauto]
                     | exists SQLGroup; split; [done|apply list_elem_of_In; simpl; tauto]
                     | exists JSONGroup; split; [done|apply list_elem_of_In; simpl; tauto]
                     | exists YAMLGroup; split; [done|apply list_elem_of_In; simpl; tauto] ]
              |]); destruct Hp.
  - intros [g [Hen Hp]]. apply list_elem_of_In in Hp. apply list_elem_of_In.
    destruct g; simpl in Hen, Hp; try rewrite Hen;
      destruct (SQL data), (JSON data), (YAML data); simpl; tauto.
Qed.

End Template.

(** The import block matches the methods: when at least one type is
    rendered, a package is imported exactly when some method written to
    the artifact belongs to a group that refers to it, so the artifact
    has neither a missing nor an unused import. *)
Theorem imports_match_methods (data : TemplateData) (path : string) :
  Types data <> [] ->
  path ∈ importsOf data <->
  exists typeName g name,
    TypeChunk typeName (Method g name) ∈ execute data /\
    path ∈ groupImports g.
Proof.
  intros Hne. rewrite importsOf_enabled. split.
  - intros [g [Hen Hp]]. destruct (Types data) as [|T types] eqn:HT; [done|].
    destruct (first_method_of_group data T g Hen) as [name Hname].
    exists T, g, name. split; [|done]. apply elem_of_execute.
    rewrite HT. split; [left|done].
  - intros (T & g & name & Hin & Hp). exists g. split; [|done].
    apply elem_of_execute in Hin as [_ Hin].
    by apply Method_in_executeType in Hin.
Qed.

Lemma imports_match_methods_witness :
  "encoding/json" ∈ importsOf two_types_data <->
  exists typeName g name,
    TypeChunk typeName (Method g name) ∈ execute two_types_data /\
    "encoding/json" ∈ groupImports g.
Proof.
  apply (imports_match_methods two_types_data "encoding/json"). discriminate.
Defined.

(** A successful run: when [main] exits normally the output file holds
    the formatted rendering of the template data, whose types are the
    sorted requested names, and the rendering lists for every requested
    type the names of the non-empty Elements [processType] found for it,
    in their order. *)
Theorem main_success (TrimSpace : string -> string)
    (WriteFile : string -> Source -> FS -> WriteOutcome)
    (gofmt : Source -> Result Source) (ToLower : string -> string)
    (flags : Flags) (pkg : Package) (fs : FS) :
  fst (main TrimSpace WriteFile gofmt ToLower flags pkg fs) = ExitOK ->
  let types := sortedTypes TrimSpace flags in
  exists data formatted,
    Types data = types /\
    WriteFile (outputNameOf ToLower flags types) (execute data) fs = WriteOK /\
    gofmt (execute data) = Ok formatted /\
    snd (main TrimSpace WriteFile gofmt ToLower flags pkg fs)
      !! outputNameOf ToLower flags types = Some formatted /\
    forall typeName, typeName ∈ types ->
      exists elements,
        processType TrimSpace flags pkg typeName = Ok elements /\
        elements <> [] /\
        TypeChunk typeName (VarValues (map Name elements)) ∈ execute data.
Proof.
  intros Hexit types.
  assert (Hne : typeNames flags <> "").
  { intros Hempty. unfold main in Hexit. rewrite Hempty in Hexit. discriminate. }
  rewrite main_cases in * by done. cbv zeta in *. fold types in Hexit |- *.
  destruct (processTypes TrimSpace flags pkg types ∅) as [allElements|msg] eqn:Hok;
    [|discriminate].
  destruct (WriteFile _ _ _) eqn:Hwrite; [|discriminate].
  destruct (gofmt _) as [formatted|] eqn:Hfmt; [|discriminate].
  match type of Hfmt with gofmt (execute ?d) = _ => exists d, formatted end.
  split; [reflexivity|]. split; [exact Hwrite|]. split; [exact Hfmt|]. split.
  - simpl. unfold FS in *. apply lookup_insert_eq.
  - intros T HT. apply processTypes_Ok in Hok as [Hin _].
    destruct (Hin T HT) as (elements & Hlook & Hproc & Hnonempty).
    exists elements. split; [done|]. split; [done|].
    apply elem_of_execute. split; [done|].
    unfold executeType. cbn [Elements]. rewrite Hlook. simpl.
    apply list_elem_of_In. simpl. auto.
Qed.

Lemma main_success_witness :
  exists data formatted,
    Types data = ["Status"] /\
    WriteFile_ok "status_enumer.go" (execute data) ∅ = WriteOK /\
    gofmt_ok (execute data) = Ok formatted /\
    snd (main strings.TrimSpaceASCII WriteFile_ok gofmt_ok strings.ToLowerASCII
           (flags_of_types "Status") Status_pkg ∅)
      !! "status_enumer.go" = Some formatted /\
    forall typeName, typeName ∈ ["Status"] ->
      exists elements,
        processType strings.TrimSpaceASCII (flags_of_types "Status") Status_pkg
          typeName = Ok elements /\
        elements <> [] /\
        TypeChunk typeName (VarValues (map Name elements)) ∈ execute data.
Proof.
  apply (main_success strings.TrimSpaceASCII WriteFile_ok gofmt_ok
           strings.ToLowerASCII (flags_of_types "Status") Status_pkg ∅).
  vm_compute. reflexivity.
Defined.



(** The blank identifier, a quote inside a display string, and two
    display strings that are one string once unquoted each leave no
    tables. *)
Example tables_rejected :
  Generated.tables golang.literal [ mkElement "_" 0 "_" ] = None /\
  Generated.tables golang.literal [ mkElement "A" 0 (String quote "a") ] = None /\
  Generated.tables golang.literal
    [ mkElement "A" 0 (String backslash "x62"); mkElement "B" 1 "b" ] = None.
Proof. vm_compute. auto. Qed.

(* ===================================================================== *)
(** ** The test driver *)
(* ===================================================================== *)

Section ParseArgs.
Variable TrimSpace : string -> string.

Lemma parseArgs_fold (lines : list string) : forall args,
  fold_left (fun args line =>
               let line := TrimSpace line in
               if negb (bool_decide (line = "")) && negb (strings.HasPrefix line "#")
               then (args ++ [line])%list else args) lines args
  = (args ++ List.filter keptLine (map TrimSpace lines))%list.
Proof.
  induction lines as [|l lines IH]; intros args; simpl.
  - by rewrite app_nil_r.
  - rewrite IH. unfold keptLine at 2.
    destruct (negb _ && negb _); [|done]. by rewrite <- app_assoc.
Qed.

End ParseArgs.

(** [parseArgs] returns, in the order of the file, the trimmed lines
    that are not empty and do not start with [#]: no argument it returns
    is empty or a comment, and every such line is returned. *)
Theorem parseArgs_lines (TrimSpace : string -> string) (argsContent : string) :
  parseArgs TrimSpace argsContent
    = List.filter keptLine (map TrimSpace (Split argsContent (ascii_of_nat 10))) /\
  (forall arg, arg ∈ parseArgs TrimSpace argsContent <->
     arg <> "" /\ strings.HasPrefix arg "#" = false /\
     exists line, line ∈ Split argsContent (ascii_of_nat 10) /\
                  arg = TrimSpace line).
Proof.
  assert (Heq : parseArgs TrimSpace argsContent
    = List.filter keptLine (map TrimSpace (Split argsContent (ascii_of_nat 10)))).
  { unfold parseArgs. cbv zeta. by rewrite parseArgs_fold. }
  split; [exact Heq|]. intros arg. rewrite Heq, list_elem_of_In, filter_In, in_map_iff.
  unfold keptLine. rewrite andb_true_iff, !negb_true_iff, bool_decide_eq_false.
  split.
  - intros [[line [<- Hl]] [Hne Hc]]. repeat split; try done.
    exists line. by rewrite list_elem_of_In.
  - intros [Hne [Hc [line [Hl ->]]]]. split; [|done].
    exists line. by rewrite <- list_elem_of_In.
Qed.

Example parseArgs_example :
  parseArgs strings.TrimSpaceASCII
    ("# flags" +:+ String (ascii_of_nat 10) ("-type=Status" +:+
       String (ascii_of_nat 10) (String (ascii_of_nat 10) "  -json ")))
  = ["-type=Status"; "-json"].
Proof. vm_compute. reflexivity. Qed.
